(** * Psychoanalytic Event Aggregator: extraction pipeline and event viewer

    A shallow embedding of the event parser, the completeness scorer and the
    merge rule of the scraping pipeline (the Python code of
    [psychoanalytic-events-aggregator-spec.md]) and of the React front end
    ([useEvents.js] and the [App] component), followed by the properties the
    specification states about them.

    Conventions.
    - A Python [str] is a [string] whose characters are code points below
      256 (Latin-1).  Whitespace, lower-casing and slicing follow Python on
      that repertoire.
    - A BeautifulSoup fragment is a tree of tags and text nodes;
      [select_one] takes the parsed form of the CSS selector.
    - A Python exception is a [Raise] result; [None] is [option]'s [None].
    - [dateutil] is an interface ([DateUtil]); everything proved about the
      parser holds for every implementation of it.  [IsoDates] is a small
      implementation used to run the code on concrete fragments. *)

From Stdlib Require Import ZArith Lia Ascii Permutation Sorted.
From stdpp Require Import base option strings list gmap pretty.

Set Default Proof Using "Type".
Local Open Scope Z_scope.

(* ===================================================================== *)
(** * Part I. The embedding                                              *)
(* ===================================================================== *)

(** ** Python strings *)

Module Py.

Definition code (c : ascii) : nat := nat_of_ascii c.

(** [str.isspace] on one character: TAB..CR, FS..US, SPACE, NEL, NBSP. *)
Definition isspace (c : ascii) : bool :=
  let n := code c in
  ((9 <=? n) && (n <=? 13) || (28 <=? n) && (n <=? 32) || (n =? 133) || (n =? 160))%nat.

(** [\d] and the ranges [[A-Z]], [[a-z]] of the date patterns. *)
Definition isdigit (c : ascii) : bool :=
  let n := code c in ((48 <=? n) && (n <=? 57))%nat.

Definition isupper_ascii (c : ascii) : bool :=
  let n := code c in ((65 <=? n) && (n <=? 90))%nat.

Definition islower_ascii (c : ascii) : bool :=
  let n := code c in ((97 <=? n) && (n <=? 122))%nat.

(** [str.lower] on one character: A-Z and the Latin-1 capitals
    (192..222 except the multiplication sign 215) move up by 32. *)
Definition lower_char (c : ascii) : ascii :=
  let n := code c in
  if ((65 <=? n) && (n <=? 90) || (192 <=? n) && (n <=? 222) && negb (n =? 215))%nat
  then ascii_of_nat (n + 32) else c.

Fixpoint lower (s : string) : string :=
  match s with
  | EmptyString => EmptyString
  | String c s' => String (lower_char c) (lower s')
  end.

Fixpoint lstrip (s : string) : string :=
  match s with
  | EmptyString => EmptyString
  | String c s' => if isspace c then lstrip s' else s
  end.

Fixpoint rstrip (s : string) : string :=
  match s with
  | EmptyString => EmptyString
  | String c s' =>
      match rstrip s' with
      | EmptyString => if isspace c then EmptyString else String c EmptyString
      | r => String c r
      end
  end.

(** [s.strip()] *)
Definition strip (s : string) : string := rstrip (lstrip s).

(** [s[:n]] *)
Fixpoint slice_to (n : nat) (s : string) : string :=
  match n, s with
  | O, _ => EmptyString
  | S _, EmptyString => EmptyString
  | S n', String c s' => String c (slice_to n' s')
  end.

(** [s.startswith(p)] *)
Fixpoint startswith (p s : string) : bool :=
  match p, s with
  | EmptyString, _ => true
  | String _ _, EmptyString => false
  | String a p', String b s' => if Ascii.eqb a b then startswith p' s' else false
  end.

(** [needle in hay] *)
Fixpoint contains (needle hay : string) : bool :=
  startswith needle hay ||
  match hay with
  | EmptyString => false
  | String _ hay' => contains needle hay'
  end.

(** [s.split(sep)] for a one-character separator. *)
Fixpoint split (sep : ascii) (s : string) : list string :=
  match s with
  | EmptyString => [EmptyString]
  | String c s' =>
      if Ascii.eqb c sep then EmptyString :: split sep s'
      else match split sep s' with
           | [] => [String c EmptyString]
           | h :: t => String c h :: t
           end
  end.

(** [''.join(l)] *)
Definition join (l : list string) : string := foldr String.append EmptyString l.

(** [any(p(x) for x in l)] *)
Definition any {A} (p : A -> bool) (l : list A) : bool := existsb p l.

(** [l[0]] and [l[-1]] of a list of strings known to be non-empty. *)
Definition first_item (l : list string) : string := List.hd EmptyString l.
Definition last_item (l : list string) : string := List.last l EmptyString.

(** A [for] loop that returns at the first element on which [f] succeeds. *)
Fixpoint first_some {A B} (f : A -> option B) (l : list A) : option B :=
  match l with
  | [] => None
  | x :: l' =>
      match f x with
      | Some b => Some b
      | None => first_some f l'
      end
  end.

(** Exceptions and results. *)
Inductive exn :=
| ParserError
| KeyError (key : string)
| OtherError (name : string).

Inductive result (A : Type) :=
| Ok (a : A)
| Raise (e : exn).
Arguments Ok {A} a.
Arguments Raise {A} e.

Definition bind {A B} (m : result A) (k : A -> result B) : result B :=
  match m with
  | Ok a => k a
  | Raise e => Raise e
  end.

(** [try: m  except Exception: h] *)
Definition try_except {A} (m : result A) (h : exn -> result A) : result A :=
  match m with
  | Ok a => Ok a
  | Raise e => h e
  end.

Definition raises {A} (m : result A) : Prop := exists e, m = Raise e.

End Py.

#[global] Instance result_ret : MRet Py.result := @Py.Ok.
#[global] Instance result_bind : MBind Py.result := fun A B k m => Py.bind m k.

(** ** Regular expressions ([re.search])

    The patterns of the parser are sequences of literals, character
    classes, greedy bounded or unbounded repetitions of a class, and greedy
    optional groups.  [search] is the leftmost match of a backtracking
    matcher, as in Python; [icase] is [re.IGNORECASE] (the patterns compiled
    with it contain no letter class, so it only affects literals). *)

Module Re.

Inductive regex :=
| Eps
| Lit (c : ascii)
| Cls (p : ascii -> bool)
| Rep (p : ascii -> bool) (lo : nat) (hi : option nat)
| Opt (r : regex)
| Seq (r1 r2 : regex).

Definition seq (rs : list regex) : regex := foldr Seq Eps rs.

(** The literal text [s]. *)
Fixpoint text (s : string) : regex :=
  match s with
  | EmptyString => Eps
  | String c s' => Seq (Lit c) (text s')
  end.

Definition same_char (icase : bool) (c d : ascii) : bool :=
  if icase then Ascii.eqb (Py.lower_char c) (Py.lower_char d) else Ascii.eqb c d.

(** [p{lo,hi}], longest first; [k] continues with the rest of the text. *)
Fixpoint rep (p : ascii -> bool) (lo : nat) (hi : option nat) (s : string)
    (k : string -> option string) : option string :=
  let stop := if (lo =? 0)%nat then k s else None in
  match s with
  | EmptyString => stop
  | String c s' =>
      if p c && match hi with Some O => false | _ => true end
      then match rep p (Nat.pred lo) (Nat.pred <$> hi) s' k with
           | Some r => Some r
           | None => stop
           end
      else stop
  end.

(** [go icase r s k]: match [r] at the start of [s], then [k] on what is
    left; the result is the text left after the whole match. *)
Fixpoint go (icase : bool) (r : regex) (s : string)
    (k : string -> option string) : option string :=
  match r with
  | Eps => k s
  | Lit c =>
      match s with
      | String d s' => if same_char icase c d then k s' else None
      | EmptyString => None
      end
  | Cls p =>
      match s with
      | String d s' => if p d then k s' else None
      | EmptyString => None
      end
  | Rep p lo hi => rep p lo hi s k
  | Opt r' =>
      match go icase r' s k with
      | Some x => Some x
      | None => k s
      end
  | Seq r1 r2 => go icase r1 s (fun s' => go icase r2 s' k)
  end.

(** [re.match(r, s)]: the matched text, [match.group()]. *)
Definition match_at (icase : bool) (r : regex) (s : string) : option string :=
  rest ← go icase r s Some;
  Some (Py.slice_to (String.length s - String.length rest) s).

(** [re.search(r, s)]: the leftmost match, [match.group()]. *)
Fixpoint search_with (icase : bool) (r : regex) (s : string) : option string :=
  match match_at icase r s with
  | Some m => Some m
  | None =>
      match s with
      | EmptyString => None
      | String _ s' => search_with icase r s'
      end
  end.

Definition search (r : regex) (s : string) : option string := search_with false r s.
Definition search_ignorecase (r : regex) (s : string) : option string := search_with true r s.

End Re.

(** ** BeautifulSoup fragments *)

Module Soup.

(** A parsed fragment: text nodes and tags with attributes and children.
    The [class] attribute holds its class names separated by spaces. *)
#[warnings="-register-all"]
Inductive node :=
| NText (s : string)
| NTag (name : string) (attrs : list (string * string)) (children : list node).

(** The parsed form of a CSS selector list [s1, s2, ...]. *)
Inductive simple_selector :=
| ByTag (t : string)                  (* t *)
| ByClass (c : string)                (* .c *)
| ByTagAttr (t a : string)            (* t[a] *)
| ByTagAttrSub (t a v : string).      (* t[a*="v"] *)

Definition selector := list simple_selector.

(** The text nodes below a node, in document order. *)
Fixpoint strings (n : node) : list string :=
  match n with
  | NText s => [s]
  | NTag _ _ cs => flat_map strings cs
  end.

(** [n.get_text()], also [n.text]. *)
Definition get_text (n : node) : string := Py.join (strings n).

(** [n.get_text(strip=True)]: every text node is stripped, the empty ones
    are dropped, the rest is joined. *)
Definition stripped_strings (n : node) : list string :=
  filter (fun s => s ≠ EmptyString) (map Py.strip (strings n)).

Definition get_text_strip (n : node) : string := Py.join (stripped_strings n).

(** The nodes strictly below a node, in document order. *)
Fixpoint descendants (n : node) : list node :=
  match n with
  | NText _ => []
  | NTag _ _ cs => flat_map (fun c => c :: descendants c) cs
  end.

Definition attr_lookup (a : string) (attrs : list (string * string)) : option string :=
  snd <$> List.find (fun kv => String.eqb (fst kv) a) attrs.

(** [n.get(a)] *)
Definition get_attr (n : node) (a : string) : option string :=
  match n with
  | NText _ => None
  | NTag _ attrs _ => attr_lookup a attrs
  end.

(** [n[a]] *)
Definition get_item (n : node) (a : string) : Py.result string :=
  match get_attr n a with
  | Some v => Py.Ok v
  | None => Py.Raise (Py.KeyError a)
  end.

(** [n.has_attr(a)] *)
Definition has_attr (n : node) (a : string) : bool := bool_decide (is_Some (get_attr n a)).

Definition classes (n : node) : list string :=
  match get_attr n "class" with
  | Some v => filter (fun s => s ≠ EmptyString) (Py.split " " v)
  | None => []
  end.

Definition tag_name (n : node) : option string :=
  match n with
  | NText _ => None
  | NTag t _ _ => Some t
  end.

Definition has_tag (t : string) (n : node) : bool :=
  match tag_name n with
  | Some t' => String.eqb t t'
  | None => false
  end.

Definition is_tag (n : node) : bool := bool_decide (is_Some (tag_name n)).

Definition matches_simple (s : simple_selector) (n : node) : bool :=
  match s with
  | ByTag t => has_tag t n
  | ByClass c => is_tag n && existsb (String.eqb c) (classes n)
  | ByTagAttr t a => has_tag t n && has_attr n a
  | ByTagAttrSub t a v =>
      has_tag t n &&
      match get_attr n a with
      | Some w => Py.contains v w
      | None => false
      end
  end.

Definition matches (sel : selector) (n : node) : bool :=
  existsb (fun s => matches_simple s n) sel.

(** [n.select_one(sel)]: the first tag below [n], in document order, that
    one of the selectors of the list matches. *)
Definition select_one (n : node) (sel : selector) : option node :=
  List.find (matches sel) (descendants n).

End Soup.

(** ** dateutil *)

Record datetime := mk_datetime {
  year : Z; month : Z; day : Z; hour : Z; minute : Z; second : Z }.

(** [date_parser.parse(s)] and [date_parser.parse(s, fuzzy=True)]; [None]
    stands for the exception the call raises on a text it cannot read. *)
Class DateUtil := {
  date_parser_parse : string -> option datetime;
  date_parser_parse_fuzzy : string -> option datetime }.

(** ** The event parser *)

Module EventParser.
Import Py Soup.

(** The dictionary [event_data], the keyword arguments of the [Event]
    constructor. *)
Record event_data := mk_event_data {
  title : string;
  description : string;
  start_date : option datetime;
  format : string;
  location : gmap string string;
  registration : gmap string string;
  source : gmap string string }.

(** The [Event] class is not part of the sources: its constructor, which
    validates, is an interface. *)
Class EventClass := {
  Event : Type;
  Event_init : event_data -> result Event }.

Definition digits (lo : nat) (hi : option nat) : Re.regex := Re.Rep isdigit lo hi.

(** [DATE_PATTERNS] *)
Definition DATE_PATTERNS : list Re.regex :=
  [ (* \d{1,2}/\d{1,2}/\d{4} *)
    Re.seq [digits 1 (Some 2%nat); Re.Lit "/"; digits 1 (Some 2%nat); Re.Lit "/";
            digits 4 (Some 4%nat)];
    (* \d{4}-\d{2}-\d{2} *)
    Re.seq [digits 4 (Some 4%nat); Re.Lit "-"; digits 2 (Some 2%nat); Re.Lit "-";
            digits 2 (Some 2%nat)];
    (* [A-Z][a-z]+ \d{1,2},? \d{4} *)
    Re.seq [Re.Cls isupper_ascii; Re.Rep islower_ascii 1 None; Re.Lit " ";
            digits 1 (Some 2%nat); Re.Opt (Re.Lit ","); Re.Lit " "; digits 4 (Some 4%nat)];
    (* \d{1,2} [A-Z][a-z]+ \d{4} *)
    Re.seq [digits 1 (Some 2%nat); Re.Lit " "; Re.Cls isupper_ascii;
            Re.Rep islower_ascii 1 None; Re.Lit " "; digits 4 (Some 4%nat)] ].

(** [FORMAT_KEYWORDS] *)
Definition FORMAT_KEYWORDS : gmap string (list string) :=
  {[ "online" := ["online"; "virtual"; "webinar"; "zoom"; "via zoom"; "remote"];
     "in-person" := ["in-person"; "in person"; "venue"; "location:"; "address:"];
     "hybrid" := ["hybrid"; "both online and in-person"] ]}.

(** ['.date, .event-date, time[datetime]'] *)
Definition date_selector : selector :=
  [ByClass "date"; ByClass "event-date"; ByTagAttr "time" "datetime"].

(** ['.location, .venue, .address'] *)
Definition location_selector : selector :=
  [ByClass "location"; ByClass "venue"; ByClass "address"].

(** ['a[href*="zoom"], a[href*="meet"]'] *)
Definition zoom_selector : selector :=
  [ByTagAttrSub "a" "href" "zoom"; ByTagAttrSub "a" "href" "meet"].

(** ['a[href*="register"], a[href*="registration"]'] *)
Definition registration_selector : selector :=
  [ByTagAttrSub "a" "href" "register"; ByTagAttrSub "a" "href" "registration"].

(** [['h1', 'h2', 'h3', '.event-title', '.title', 'a']] *)
Definition title_selectors : list selector :=
  [[ByTag "h1"]; [ByTag "h2"]; [ByTag "h3"]; [ByClass "event-title"]; [ByClass "title"];
   [ByTag "a"]].

(** [['.description', '.event-description', 'p', '.content']] *)
Definition description_selectors : list selector :=
  [[ByClass "description"]; [ByClass "event-description"]; [ByTag "p"]; [ByClass "content"]].

(** The fee patterns of [_extract_registration].  The euro sign lies
    outside the repertoire of the modelled strings, so its pattern starts
    with a class that no character belongs to. *)
Definition fee_patterns : list Re.regex :=
  [ (* \$\d+(?:\.\d{2})? *)
    Re.seq [Re.Lit "$"; digits 1 None; Re.Opt (Re.seq [Re.Lit "."; digits 2 (Some 2%nat)])];
    (* (euro)\d+ *)
    Re.seq [Re.Cls (fun _ => false); digits 1 None];
    (* (pound)\d+ *)
    Re.seq [Re.Lit (ascii_of_nat 163); digits 1 None];
    Re.text "free";
    Re.text "no charge";
    Re.text "complimentary" ].

(** One round of the selector loop of [_extract_title]. *)
Definition title_by (element : node) (sel : selector) : option string :=
  match select_one element sel with
  | Some title_elem =>
      if bool_decide (strip (get_text title_elem) ≠ EmptyString)
      then Some (strip (get_text title_elem))
      else None
  | None => None
  end.

Definition _extract_title (element : node) : string :=
  match first_some (title_by element) title_selectors with
  | Some t => t
  | None => slice_to 200 (get_text_strip element)
  end.

(** One round of the selector loop of [_extract_description]. *)
Definition description_by (element : node) (sel : selector) : option string :=
  match select_one element sel with
  | Some desc_elem =>
      let text := get_text_strip desc_elem in
      if (50 <? String.length text)%nat then Some text else None
  | None => None
  end.

Definition _extract_description (element : node) : string :=
  match first_some (description_by element) description_selectors with
  | Some t => t
  | None => EmptyString
  end.

Definition _detect_format (element : node) : string :=
  let text := lower (get_text element) in
  if any (fun kw => contains kw text) (FORMAT_KEYWORDS !!! "hybrid") then "hybrid"
  else if any (fun kw => contains kw text) (FORMAT_KEYWORDS !!! "online") then "online"
  else if any (fun kw => contains kw text) (FORMAT_KEYWORDS !!! "in-person") then "in-person"
  else if bool_decide (is_Some (select_one element location_selector)) then "in-person"
  else "online".

Definition _extract_location (element : node) : result (gmap string string) :=
  let location : gmap string string := ∅ in
  let location :=
    match select_one element location_selector with
    | Some loc_elem =>
        let text := get_text_strip loc_elem in
        let location := <["venue" := text]> location in
        let parts := map strip (split "," text) in
        if (2 <=? length parts)%nat
        then <["country" := last_item parts]> (<["city" := first_item parts]> location)
        else location
    | None => location
    end in
  match select_one element zoom_selector with
  | Some zoom_link =>
      href ← get_item zoom_link "href";
      Ok (<["online_url" := href]> location)
  | None => Ok location
  end.

Definition _extract_registration (element : node) : result (gmap string string) :=
  let registration : gmap string string := ∅ in
  registration ←
    match select_one element registration_selector with
    | Some reg_link =>
        href ← get_item reg_link "href";
        Ok (<["url" := href]> registration)
    | None => Ok registration
    end;
  let text := get_text element in
  match first_some (fun pattern => Re.search_ignorecase pattern text) fee_patterns with
  | Some fee => Ok (<["fee" := fee]> registration)
  | None => Ok registration
  end.

Section WithDateUtil.
Context `{DateUtil}.

(** The regex loop of [_extract_date]: the first pattern that matches and
    whose match [dateutil] reads. *)
Definition date_by_pattern (text : string) (pattern : Re.regex) : option datetime :=
  m ← Re.search pattern text;
  date_parser_parse m.

(** The [try] / [except] of [_extract_date], on the text it was left with. *)
Definition parse_date_text (text : string) : option datetime :=
  match date_parser_parse_fuzzy text with
  | Some d => Some d
  | None => first_some (date_by_pattern text) DATE_PATTERNS
  end.

Definition _extract_date (element : node) : result (option datetime) :=
  let text := get_text element in
  match select_one element date_selector with
  | Some date_elem =>
      if has_attr date_elem "datetime"
      then
        v ← get_item date_elem "datetime";
        match date_parser_parse v with
        | Some d => Ok (Some d)
        | None => Raise ParserError
        end
      else
        let text := get_text date_elem in
        Ok (parse_date_text text)
  | None => Ok (parse_date_text text)
  end.

(** The stages of date extraction as the specification words them: (a)
    the machine-readable attribute of the date-labeled element, parsed
    directly; (b) the text of that element, read leniently; (c) the whole
    text of the fragment, read leniently; (d) the date patterns, in order,
    on the whole text, the first match being parsed.  The first stage that
    succeeds wins. *)
Definition stage_attribute (element : node) : option datetime :=
  date_elem ← select_one element date_selector;
  v ← get_attr date_elem "datetime";
  date_parser_parse v.

Definition stage_label_text (element : node) : option datetime :=
  date_elem ← select_one element date_selector;
  date_parser_parse_fuzzy (get_text date_elem).

Definition stage_whole_text (element : node) : option datetime :=
  date_parser_parse_fuzzy (get_text element).

Definition stage_patterns (element : node) : option datetime :=
  m ← first_some (fun pattern => Re.search pattern (get_text element)) DATE_PATTERNS;
  date_parser_parse m.

Definition extract_date_staged (element : node) : option datetime :=
  first_some (fun stage : node -> option datetime => stage element)
    [stage_attribute; stage_label_text; stage_whole_text; stage_patterns].

(** The text the code reads once the attribute stage does not apply: that
    of the date-labeled element when there is one, else the whole text. *)
Definition date_text (element : node) : string :=
  match select_one element date_selector with
  | Some date_elem => get_text date_elem
  | None => get_text element
  end.

(** The two stages the code runs on that text. *)
Definition lenient (text : string) : option datetime := date_parser_parse_fuzzy text.

Definition patterns (text : string) : option datetime :=
  first_some (fun pattern => m ← Re.search pattern text; date_parser_parse m) DATE_PATTERNS.

Context `{EventClass}.

(** The body of the [try] of [parse_event_from_html]. *)
Definition build_event_data (html_element : node) (source_context : gmap string string)
    : result event_data :=
  let title := _extract_title html_element in
  let description := _extract_description html_element in
  start_date ← _extract_date html_element;
  let format := _detect_format html_element in
  location ← _extract_location html_element;
  registration ← _extract_registration html_element;
  Ok (mk_event_data title description start_date format location registration
        source_context).

Definition parse_event_from_html (html_element : node)
    (source_context : gmap string string) : result (option Event) :=
  try_except
    (event_data ← build_event_data html_element source_context;
     event ← Event_init event_data;
     Ok (Some event))
    (fun _ => Ok None).

End WithDateUtil.

End EventParser.

(** ** A [dateutil] that reads ISO calendar dates

    [IsoDates] implements [DateUtil] for texts of the shape [YYYY-MM-DD]:
    the strict parser reads exactly such a text, the fuzzy parser reads the
    first such date in a text and fails when there is none.  On the texts
    of the examples below it returns what [dateutil] returns. *)

Module IsoDates.
Import Py.

Definition digit_value (c : ascii) : Z := Z.of_nat (code c) - 48.

Fixpoint number_from (acc : Z) (s : string) : option Z :=
  match s with
  | EmptyString => Some acc
  | String c s' => if isdigit c then number_from (10 * acc + digit_value c) s' else None
  end.

Definition number (width : nat) (s : string) : option Z :=
  if (String.length s =? width)%nat then number_from 0 s else None.

Definition is_leap (y : Z) : bool :=
  (y mod 4 =? 0) && (negb (y mod 100 =? 0) || (y mod 400 =? 0)).

Definition days_in_month (y m : Z) : Z :=
  if m =? 2 then (if is_leap y then 29 else 28)
  else if (m =? 4) || (m =? 6) || (m =? 9) || (m =? 11) then 30
  else 31.

Definition valid_date (y m d : Z) : bool :=
  (1 <=? y) && (1 <=? m) && (m <=? 12) && (1 <=? d) && (d <=? days_in_month y m).

Definition parse (s : string) : option datetime :=
  match split "-" s with
  | [ys; ms; ds] =>
      y ← number 4 ys;
      m ← number 2 ms;
      d ← number 2 ds;
      if valid_date y m d then Some (mk_datetime y m d 0 0 0) else None
  | _ => None
  end.

Definition iso_pattern : Re.regex :=
  Re.seq [Re.Rep isdigit 4 (Some 4%nat); Re.Lit "-"; Re.Rep isdigit 2 (Some 2%nat);
          Re.Lit "-"; Re.Rep isdigit 2 (Some 2%nat)].

Definition parse_fuzzy (s : string) : option datetime :=
  m ← Re.search iso_pattern s;
  parse m.

Definition dateutil : DateUtil := {|
  date_parser_parse := parse;
  date_parser_parse_fuzzy := parse_fuzzy |}.

End IsoDates.

(** ** The completeness score *)

Module Scoring.

(** The table [weights] of [calculate_completeness], in the order the
    dictionary is written (and iterated). *)
Definition weights : list (string * Z) :=
  [ ("title", 20); ("start_date", 20); ("event_type", 10); ("format", 10);
    ("description", 10); ("location", 10); ("organizer.name", 10);
    ("registration.url", 10) ].

Section Completeness.
(** [has_field] is not part of the sources: the presence rule is a
    parameter of the scorer. *)
Context {event : Type} (has_field : event -> string -> bool).

(** The body of the loop over [weights.items()]. *)
Definition visit (ev : event) (acc : Z * list string) (item : string * Z)
    : Z * list string :=
  let '(score, missing_fields) := acc in
  let '(field, weight) := item in
  if has_field ev field
  then (score + weight, missing_fields)
  else (score, missing_fields ++ [field]).

Definition calculate_completeness (ev : event) : Z * list string :=
  fold_left (visit ev) weights (0, []).

End Completeness.

(** The sum of the weights of a part of the table. *)
Definition total (items : list (string * Z)) : Z :=
  foldr (fun item acc => snd item + acc) 0 items.

End Scoring.

(** ** Merging duplicates *)

Module Merger.

(** Modelled from the spec: the record the scorer weighs.  A ScoredEvent
    carries a value for each field it has, is text, an instant or a nested
    object, and remembers when its source was scraped. *)
Inductive value :=
| Text (s : string)
| Instant (d : option datetime)
| Nested (o : gmap string string).

Record ScoredEvent := mk_scored {
  fields : gmap string value;
  scraped_at : Z;
  completeness_score : Z;
  missing_fields : list string }.

(** Modelled from the spec: [has_field], the presence rule of section 4.4
    (a non-empty string, a resolved instant, a non-empty nested object). *)
Definition present (v : value) : bool :=
  match v with
  | Text s => bool_decide (s ≠ EmptyString)
  | Instant d => bool_decide (is_Some d)
  | Nested o => bool_decide (o ≠ ∅)
  end.

Definition present_opt (v : option value) : bool :=
  match v with
  | Some v => present v
  | None => false
  end.

Definition has_field (fs : gmap string value) (field : string) : bool :=
  present_opt (fs !! field).

(** The scorer on a set of fields. *)
Definition score (fs : gmap string value) : Z * list string :=
  Scoring.calculate_completeness has_field fs.

(** A ScoredEvent is what the scorer made of its fields. *)
Definition scored (e : ScoredEvent) : Prop :=
  (completeness_score e, missing_fields e) = score (fields e).

Definition to_scored (fs : gmap string value) (scraped : Z) : ScoredEvent :=
  mk_scored fs scraped (fst (score fs)) (snd (score fs)).

(** Modelled from the spec: the merge rule of section 4.5, for one field.
    The value comes from the member that has the field present; when both
    have it, from the more recently scraped one ([second_newer]); the
    values are never combined. *)
Definition merge_value (second_newer : bool) (v1 v2 : option value) : option value :=
  match present_opt v1, present_opt v2 with
  | true, false => v1
  | false, true => v2
  | _, _ => if second_newer then v2 else v1
  end.

(** Modelled from the spec: [EventMerger.merge_duplicates], whose body the
    sources leave empty.  Fields are merged one by one; score and missing
    fields are those of the merged record. *)
Definition merge_duplicates (event1 event2 : ScoredEvent) : ScoredEvent :=
  let second_newer := scraped_at event1 <? scraped_at event2 in
  let merged := merge (merge_value second_newer) (fields event1) (fields event2) in
  to_scored merged (Z.max (scraped_at event1) (scraped_at event2)).

(** Modelled from the spec: the fingerprint, a hash of the normalized
    title (case-folded, punctuation stripped) and of the start date cut to
    the day. *)
Definition is_punctuation (c : ascii) : bool :=
  let n := Py.code c in
  ((33 <=? n) && (n <=? 47) || (58 <=? n) && (n <=? 64) ||
   (91 <=? n) && (n <=? 96) || (123 <=? n) && (n <=? 126))%nat.

Fixpoint strip_punctuation (s : string) : string :=
  match s with
  | EmptyString => EmptyString
  | String c s' =>
      if is_punctuation c then strip_punctuation s' else String c (strip_punctuation s')
  end.

Definition normalized_title (e : ScoredEvent) : string :=
  match fields e !! "title" with
  | Some (Text t) => Py.strip (strip_punctuation (Py.lower t))
  | _ => EmptyString
  end.

Definition start_day (e : ScoredEvent) : option (Z * Z * Z) :=
  match fields e !! "start_date" with
  | Some (Instant (Some d)) => Some (year d, month d, day d)
  | _ => None
  end.

Definition fingerprint (hash : string * option (Z * Z * Z) -> Z) (e : ScoredEvent) : Z :=
  hash (normalized_title e, start_day e).

End Merger.

(** ** The front end: JavaScript values *)

Module Js.

(** [s.toLowerCase()] and [s.includes(t)], on the modelled repertoire. *)
Definition toLowerCase (s : string) : string := Py.lower s.
Definition includes (s t : string) : bool := Py.contains t s.

(** What the browser decides: the time value of [new Date(s)] ([None] for
    an invalid date, whose time value is NaN), the time value of
    [new Date(9999, 11, 31)] in the local zone, and [a.localeCompare(b)]. *)
Class Env := {
  Date_time : string -> option Z;
  far_future : Z;
  localeCompare : string -> string -> Z }.

(** The stable sort of [Array.prototype.sort(compare)]; a NaN from [compare]
    counts as 0. *)
Section Sort.
Context {A : Type} (compare : A -> A -> Z).

Fixpoint insert_sorted (x : A) (l : list A) : list A :=
  match l with
  | [] => [x]
  | y :: l' => if compare x y <=? 0 then x :: y :: l' else y :: insert_sorted x l'
  end.

Definition sort (l : list A) : list A := foldr insert_sorted [] l.

End Sort.

End Js.

(** ** The [App] component: [filteredEvents] *)

Module App.
Import Js.

(** A property of an event that holds a string when it is there. *)
Inductive prop :=
| Undefined
| Null
| Str (s : string).

(** Truthiness of such a property: the empty string, null and undefined
    are falsy. *)
Definition truthy (p : prop) : bool :=
  match p with
  | Str s => bool_decide (s ≠ EmptyString)
  | _ => false
  end.

(** [p || ''] *)
Definition or_empty (p : prop) : string :=
  match p with
  | Str s => s
  | _ => EmptyString
  end.

Record event := mk_event {
  title : prop;
  description : prop;
  organizer : option prop;          (* the [name] of the organizer object, if there is one *)
  format : prop;
  event_type : prop;
  start_date : prop;
  completeness_score : option Z }.

Module Filters.
Record t := mk {
  search : string;
  format : list string;
  eventType : list string;
  startDate : string;
  endDate : string;
  organization : string }.
End Filters.

(** [e.organizer?.name] *)
Definition organizer_name (e : event) : prop :=
  match organizer e with
  | Some n => n
  | None => Undefined
  end.

(** [p?.toLowerCase().includes(searchLower)], as a condition. *)
Definition lower_includes (p : prop) (searchLower : string) : bool :=
  match p with
  | Str s => includes (toLowerCase s) searchLower
  | _ => false
  end.

(** [list.includes(p)] for a list of strings. *)
Definition includes_prop (l : list string) (p : prop) : bool :=
  match p with
  | Str s => existsb (String.eqb s) l
  | _ => false
  end.

(** [p === s] *)
Definition strict_eq (p : prop) (s : string) : bool :=
  match p with
  | Str s' => String.eqb s' s
  | _ => false
  end.

Section WithEnv.
Context `{Env}.

(** [new Date(p)] for a truthy property. *)
Definition date_of (p : prop) : option Z := Date_time (or_empty p).

(** [e.start_date && new Date(e.start_date) >= start] *)
Definition on_or_after (start : option Z) (e : event) : bool :=
  truthy (start_date e) &&
  match date_of (start_date e), start with
  | Some t, Some t0 => t0 <=? t
  | _, _ => false
  end.

(** [e.start_date && new Date(e.start_date) <= end] *)
Definition on_or_before (end_ : option Z) (e : event) : bool :=
  truthy (start_date e) &&
  match date_of (start_date e), end_ with
  | Some t, Some t1 => t <=? t1
  | _, _ => false
  end.

(** [a.start_date ? new Date(a.start_date) : new Date(9999, 11, 31)] *)
Definition sort_date (a : event) : option Z :=
  if truthy (start_date a) then date_of (start_date a) else Some far_future.

(** The comparator given to [result.sort]. *)
Definition compare (sortBy : string) (a b : event) : Z :=
  if String.eqb sortBy "date" then
    match sort_date a, sort_date b with
    | Some dateA, Some dateB => dateA - dateB
    | _, _ => 0
    end
  else if String.eqb sortBy "title" then
    localeCompare (or_empty (title a)) (or_empty (title b))
  else if String.eqb sortBy "completeness" then
    default 0 (completeness_score b) - default 0 (completeness_score a)
  else 0.

Definition filteredEvents (events : list event) (filters : Filters.t) (sortBy : string)
    : list event :=
  let result := events in
  (* Text search *)
  let result :=
    if bool_decide (Filters.search filters ≠ EmptyString) then
      let searchLower := toLowerCase (Filters.search filters) in
      List.filter (fun e =>
        lower_includes (title e) searchLower ||
        lower_includes (description e) searchLower ||
        lower_includes (organizer_name e) searchLower) result
    else result in
  (* Format filter *)
  let result :=
    if (0 <? length (Filters.format filters))%nat
    then List.filter (fun e => includes_prop (Filters.format filters) (format e)) result
    else result in
  (* Event type filter *)
  let result :=
    if (0 <? length (Filters.eventType filters))%nat
    then List.filter (fun e => includes_prop (Filters.eventType filters) (event_type e)) result
    else result in
  (* Organization filter *)
  let result :=
    if bool_decide (Filters.organization filters ≠ EmptyString)
    then List.filter (fun e => strict_eq (organizer_name e) (Filters.organization filters)) result
    else result in
  (* Date range *)
  let result :=
    if bool_decide (Filters.startDate filters ≠ EmptyString) then
      let start := Date_time (Filters.startDate filters) in
      List.filter (on_or_after start) result
    else result in
  let result :=
    if bool_decide (Filters.endDate filters ≠ EmptyString) then
      let end_ := Date_time (Filters.endDate filters) in
      List.filter (on_or_before end_) result
    else result in
  (* Sort *)
  sort (compare sortBy) result.

End WithEnv.

End App.

(** ** The [useEvents] hook *)

Module UseEvents.

(** What [response.json()] can resolve to.  Of a number only whether it
    is zero matters here; an object lists its members, each key once. *)
#[warnings="-register-all"]
Inductive json :=
| JNull
| JBool (b : bool)
| JNum (n : Z)
| JStr (s : string)
| JArr (items : list json)
| JObj (members : list (string * json)).

(** [Array.isArray(v)] *)
Definition isArray (v : json) : bool :=
  match v with
  | JArr _ => true
  | _ => false
  end.

(** Truthiness; [None] is [undefined]. *)
Definition truthy (v : option json) : bool :=
  match v with
  | None => false
  | Some JNull => false
  | Some (JBool b) => b
  | Some (JNum n) => negb (n =? 0)
  | Some (JStr s) => bool_decide (s ≠ EmptyString)
  | Some (JArr _) => true
  | Some (JObj _) => true
  end.

(** [v.key] for a key that no prototype defines ([events], [metadata],
    [last_updated]): the member of an object, [undefined] on any other
    value, and a TypeError, whose message is [inr], on [null]. *)
Definition member (null_read : string -> string) (v : json) (key : string)
    : option json + string :=
  match v with
  | JNull => inr (null_read key)
  | JObj members => inl (snd <$> List.find (fun kv => String.eqb (fst kv) key) members)
  | _ => inl None
  end.

(** [v?.key] for a value that may be [undefined] or [null]. *)
Definition member_opt (v : option json) (key : string) : option json :=
  match v with
  | Some (JObj members) => snd <$> List.find (fun kv => String.eqb (fst kv) key) members
  | _ => None
  end.

(** The state of the hook. *)
Record state := mk_state {
  events : json;
  loading : bool;
  error : option string;
  lastUpdated : option json }.

(** [useState([])], [useState(true)], [useState(null)], [useState(null)] *)
Definition initial : state := mk_state (JArr []) true None None.

Definition setEvents (v : json) (s : state) : state :=
  mk_state v (loading s) (error s) (lastUpdated s).
Definition setLoading (b : bool) (s : state) : state :=
  mk_state (events s) b (error s) (lastUpdated s).
Definition setError (e : option string) (s : state) : state :=
  mk_state (events s) (loading s) e (lastUpdated s).
Definition setLastUpdated (v : option json) (s : state) : state :=
  mk_state (events s) (loading s) (error s) v.

(** How the fetch ends: [fetch] rejects, or resolves to a response with a
    status whose body is or is not JSON. *)
Inductive body :=
| BadJson (message : string)
| Parsed (data : json).

Inductive outcome :=
| NetworkError (message : string)
| Response (status : Z) (b : body).

(** [response.ok] *)
Definition ok (status : Z) : bool := (200 <=? status) && (status <=? 299).

Section WithEngine.
(** The message of the TypeError that reading a property of [null] throws
    depends on the engine. *)
Variable null_read : string -> string.

(** The [try] block after the two initial updates: the state it reaches,
    or the message of the error it throws (no update precedes a throw). *)
Definition try_block (o : outcome) (s : state) : state + string :=
  match o with
  | NetworkError message => inr message
  | Response status b =>
      if negb (ok status) then inr ("Failed to fetch events: " +:+ pretty status)
      else
        match b with
        | BadJson message => inr message
        | Parsed data =>
            if isArray data then inl (setEvents data s)
            else
              match member null_read data "events" with
              | inr message => inr message
              | inl (Some data_events) =>
                  if truthy (Some data_events) then
                    let s := setEvents data_events s in
                    let last_updated :=
                      member_opt (member_opt (Some data) "metadata") "last_updated" in
                    if truthy last_updated
                    then inl (setLastUpdated last_updated s)
                    else inl s
                  else inl (setEvents (JArr []) s)
              | inl None => inl (setEvents (JArr []) s)
              end
        end
  end.

Definition fetchEvents (o : outcome) (s : state) : state :=
  let s := setLoading true s in
  let s := setError None s in
  let s :=
    match try_block o s with
    | inl s' => s'
    | inr message => setEvents (JArr []) (setError (Some message) s)
    end in
  setLoading false s.

End WithEngine.

(** The failures of the fetch and their messages: a network error, a
    status that is not OK, a body that is not JSON. *)
Definition failure_message (o : outcome) : option string :=
  match o with
  | NetworkError message => Some message
  | Response status b =>
      if negb (ok status) then Some ("Failed to fetch events: " +:+ pretty status)
      else match b with
           | BadJson message => Some message
           | Parsed _ => None
           end
  end.

(** The payload of a fetch that did not fail. *)
Definition payload (o : outcome) : option json :=
  match o with
  | Response status (Parsed data) => if ok status then Some data else None
  | _ => None
  end.

(** [data.events] of an object, [undefined] when it has no such member or
    is no object. *)
Definition events_member (data : json) : option json := member_opt (Some data) "events".

(** What the outcome of the fetch alone determines: the events and the
    error the hook ends with. *)
Definition final_events (o : outcome) : json :=
  match payload o with
  | Some data =>
      if isArray data then data
      else match events_member data with
           | Some v => if truthy (Some v) then v else JArr []
           | None => JArr []
           end
  | None => JArr []
  end.

Definition final_error (null_read : string -> string) (o : outcome) : option string :=
  match failure_message o with
  | Some message => Some message
  | None =>
      match payload o with
      | Some JNull => Some (null_read "events")
      | _ => None
      end
  end.

(** The message of V8. *)
Definition v8_null_read (key : string) : string :=
  "Cannot read properties of null (reading '" +:+ key +:+ "')".

End UseEvents.

(** ** A browser

    [UtcBrowser] implements [Js.Env]: a browser in the UTC zone that reads
    ISO calendar dates and compares strings by code point. *)

Module UtcBrowser.

(** Days from 1970-01-01 to a date of the proleptic Gregorian calendar. *)
Definition days_from_civil (y m d : Z) : Z :=
  let y := if m <=? 2 then y - 1 else y in
  let era := y / 400 in
  let yoe := y - era * 400 in
  let mp := (m + 9) mod 12 in
  let doy := (153 * mp + 2) / 5 + d - 1 in
  let doe := yoe * 365 + yoe / 4 - yoe / 100 + doy in
  era * 146097 + doe - 719468.

(** The time value of [new Date("YYYY-MM-DD")]: midnight UTC, in
    milliseconds. *)
Definition time_value (s : string) : option Z :=
  d ← IsoDates.parse s;
  Some (days_from_civil (year d) (month d) (day d) * 86400000).

Definition code_point_order (a b : string) : Z :=
  match String.compare a b with
  | Lt => -1
  | Eq => 0
  | Gt => 1
  end.

Definition browser : Js.Env := {|
  Js.Date_time := time_value;
  Js.far_future := days_from_civil 9999 12 31 * 86400000;
  Js.localeCompare := code_point_order |}.

End UtcBrowser.

(** ** Fragments and records used as examples *)

Module Examples.
Import Py Soup EventParser.

(** Modelled from the spec: the [Event] constructor, which the sources do
    not contain.  It rejects the record that has neither a title nor a
    date (section 4.2) and accepts every other one. *)
Definition validated_event : EventClass := {|
  Event := event_data;
  Event_init := fun data =>
    if bool_decide (title data = EmptyString) && bool_decide (start_date data = None)
    then Raise (OtherError "ValidationError")
    else Ok data |}.

Definition org_a : gmap string string := {[ "id" := "org-a" ]}.

(** [<div class="event"><h2>Clinical Seminar</h2>
      <span class="date" datetime="2024-03-10">March 10</span></div>] *)
Definition clinical_seminar : node :=
  NTag "div" [("class", "event")]
    [ NTag "h2" [] [NText "Clinical Seminar"];
      NTag "span" [("class", "date"); ("datetime", "2024-03-10")] [NText "March 10"] ].

(** [<div><h2>Hybrid seminar</h2><p>In the library and on Zoom</p></div>] *)
Definition hybrid_on_zoom : node :=
  NTag "div" []
    [ NTag "h2" [] [NText "Hybrid seminar"];
      NTag "p" [] [NText "In the library and on Zoom"] ].

(** [<div><h2>Clinical Seminar</h2><p>Online</p></div>]: the format is
    stated. *)
Definition stated_online : node :=
  NTag "div" []
    [ NTag "h2" [] [NText "Clinical Seminar"]; NTag "p" [] [NText "Online"] ].

(** [<div><h2>Clinical Seminar</h2><p></p></div>]: no keyword, no
    location. *)
Definition unstated_format : node :=
  NTag "div" [] [ NTag "h2" [] [NText "Clinical Seminar"]; NTag "p" [] [] ].

(** [<div><time datetime="2024-01-15"></time><p>sometime in spring</p></div>] *)
Definition spring : node :=
  NTag "div" []
    [ NTag "time" [("datetime", "2024-01-15")] [];
      NTag "p" [] [NText "sometime in spring"] ].

(** [<div><span class="date">TBA</span> <p>2024-01-15</p></div>] *)
Definition date_outside_label : node :=
  NTag "div" []
    [ NTag "span" [("class", "date")] [NText "TBA"]; NText " ";
      NTag "p" [] [NText "2024-01-15"] ].

(** [<div><h2>Clinical Seminar</h2><time datetime="TBA">soon</time></div>] *)
Definition unreadable_attribute : node :=
  NTag "div" []
    [ NTag "h2" [] [NText "Clinical Seminar"];
      NTag "time" [("datetime", "TBA")] [NText "soon"] ].

(** [<div>  </div>] *)
Definition blank : node := NTag "div" [] [NText "  "].

(** [<div><span class="venue"> Freud Museum, <b>London , UK </b></span>
      <a href="https://zoom.us/j/1">join</a></div>] *)
Definition museum : node :=
  NTag "div" []
    [ NTag "span" [("class", "venue")]
        [NText " Freud Museum, "; NTag "b" [] [NText "London , UK "]];
      NTag "a" [("href", "https://zoom.us/j/1")] [NText "join"] ].

(** Two records of one conference, the second scraped later. *)
Definition conference_a : Merger.ScoredEvent :=
  Merger.to_scored
    {[ "title" := Merger.Text "Annual Conference 2025";
       "start_date" := Merger.Instant (Some (mk_datetime 2025 6 1 0 0 0));
       "description" := Merger.Text "" ]} 1.

Definition conference_b : Merger.ScoredEvent :=
  Merger.to_scored
    {[ "title" := Merger.Text "Annual Conference, 2025";
       "start_date" := Merger.Instant (Some (mk_datetime 2025 6 1 9 30 0));
       "event_type" := Merger.Text "conference";
       "format" := Merger.Text "in-person";
       "description" := Merger.Text "Three days of papers and panels.";
       "location" := Merger.Nested {[ "city" := "London" ]} ]} 2.

Definition title_length (key : string * option (Z * Z * Z)) : Z :=
  Z.of_nat (String.length (fst key)).

(** Events of the catalog: one without a date, one dated. *)
Definition undated : App.event :=
  App.mk_event (App.Str "Reading group") App.Undefined None (App.Str "online")
    (App.Str "seminar") App.Null (Some 50).

Definition dated : App.event :=
  App.mk_event (App.Str "Clinical Seminar") App.Undefined None (App.Str "online")
    (App.Str "seminar") (App.Str "2024-03-10") (Some 50).

Definition from_march : App.Filters.t :=
  App.Filters.mk "" [] [] "2024-03-01" "" "".

End Examples.

(** ** The newsletter parser *)

Module NewsletterParser.
Import Py Soup EventParser.

(** The [date_indicators] of [_contains_date].  A pattern [A|B|...] is the
    list of its alternatives: it is found in a text exactly when one of
    them is.  The list has three patterns: no comma separates the literal
    of the months from the literal of the weekdays, so the two are one
    pattern, whose alternative after [November] is [DecemberMon]. *)
Definition date_indicators : list (list Re.regex) :=
  [ (* \d{1,2}/\d{1,2} *)
    [ Re.seq [digits 1 (Some 2%nat); Re.Lit "/"; digits 1 (Some 2%nat)] ];
    (* \d{4}-\d{2} *)
    [ Re.seq [digits 4 (Some 4%nat); Re.Lit "-"; digits 2 (Some 2%nat)] ];
    map Re.text
      [ "January"; "February"; "March"; "April"; "May"; "June"; "July"; "August";
        "September"; "October"; "November"; "DecemberMon";
        "Tue"; "Wed"; "Thu"; "Fri"; "Sat"; "Sun" ] ].

(** [re.search(pattern, text, re.IGNORECASE)], as a condition. *)
Definition found (alternatives : list Re.regex) (text : string) : bool :=
  any (fun r => bool_decide (is_Some (Re.search_ignorecase r text))) alternatives.

Definition _contains_date (text : string) : bool :=
  any (fun pattern => found pattern text) date_indicators.




Section WithParser.
Context `{DateUtil} `{EventClass}.



End WithParser.

End NewsletterParser.

(** ** The orchestrator *)

Module ScraperOrchestrator.
Import Py.

Record error_entry := mk_error { source : string; error : string }.

(** The dictionary [results]. *)
Record Results := mk_results {
  total_sources : Z;
  successful : Z;
  failed : Z;
  new_events : Z;
  errors : list error_entry }.

(** [d[key]] *)
Definition getitem (d : gmap string string) (key : string) : result string :=
  match d !! key with
  | Some v => Ok v
  | None => Raise (KeyError key)
  end.

Section WithScrapers.
(** [scrape_source] and [str] of an exception are not part of the
    sources. *)
Context {event : Type}.
Variable scrape_source : gmap string string -> result (list event).
Variable str : exn -> string.

(** One round of the loop over the sources. *)
Definition visit (results : Results) (source : gmap string string) : result Results :=
  match scrape_source source with
  | Ok events =>
      Ok (mk_results (total_sources results) (successful results + 1) (failed results)
            (new_events results + Z.of_nat (length events)) (errors results))
  | Raise e =>
      name ← getitem source "name";
      Ok (mk_results (total_sources results) (successful results) (failed results + 1)
            (new_events results) (errors results ++ [mk_error name (str e)]))
  end.

Fixpoint visit_all (results : Results) (sources : list (gmap string string))
    : result Results :=
  match sources with
  | [] => Ok results
  | source :: rest =>
      results ← visit results source;
      visit_all results rest
  end.

(** [run_all_scrapers], on the sources that [load_sources] returned: the
    summary, and whether [notify_admin] was called. *)
Definition run_all_scrapers (sources : list (gmap string string))
    : result (Results * bool) :=
  results ← visit_all (mk_results 0 0 0 0 []) sources;
  Ok (results, 0 <? failed results).

End WithScrapers.

End ScraperOrchestrator.

(** ** The resilient scraper *)

Module ResilientScraper.
Import Py.

(** How one request ends: the text of a response whose status is fine, a
    [Timeout] or [ConnectionError], or any other exception (such as the
    [HTTPError] of [raise_for_status]). *)
Inductive response :=
| Got (text : string)
| Transient (e : exn)
| Fatal (e : exn).

Section WithRequests.
(** [requests.get] at the n-th request, counted from 0. *)
Variable get : nat -> response.
Variable max_retries : Z.

(** The loop from [attempt] on, with [remaining] rounds to go; [sleeps]
    lists the seconds slept so far. *)
Fixpoint attempts (attempt remaining : nat) (sleeps : list Z)
    : result (option string) * list Z :=
  match remaining with
  | O => (Ok None, sleeps)
  | S remaining' =>
      match get attempt with
      | Got text => (Ok (Some text), sleeps)
      | Fatal e => (Raise e, sleeps)
      | Transient e =>
          if Z.of_nat attempt =? max_retries - 1 then (Raise e, sleeps)
          else attempts (S attempt) remaining' (sleeps ++ [2 ^ Z.of_nat attempt])
      end
  end.

Definition scrape_with_retry : result (option string) * list Z :=
  attempts 0 (Z.to_nat max_retries) [].

End WithRequests.

End ResilientScraper.

(** ** The filter bar *)

Module FilterBar.
Import App.

Definition toggleFormat (format : string) (prev : Filters.t) : Filters.t :=
  Filters.mk (Filters.search prev)
    (if existsb (String.eqb format) (Filters.format prev)
     then List.filter (fun f => negb (String.eqb f format)) (Filters.format prev)
     else Filters.format prev ++ [format])
    (Filters.eventType prev) (Filters.startDate prev) (Filters.endDate prev)
    (Filters.organization prev).

Definition toggleEventType (type : string) (prev : Filters.t) : Filters.t :=
  Filters.mk (Filters.search prev) (Filters.format prev)
    (if existsb (String.eqb type) (Filters.eventType prev)
     then List.filter (fun t => negb (String.eqb t type)) (Filters.eventType prev)
     else Filters.eventType prev ++ [type])
    (Filters.startDate prev) (Filters.endDate prev) (Filters.organization prev).

(** The filters that [clearFilters] sets. *)
Definition clearFilters : Filters.t := Filters.mk "" [] [] "" "" "".

(** [hasActiveFilters], as a condition. *)
Definition hasActiveFilters (filters : Filters.t) : bool :=
  bool_decide (Filters.search filters ≠ EmptyString) ||
  (0 <? length (Filters.format filters))%nat ||
  (0 <? length (Filters.eventType filters))%nat ||
  bool_decide (Filters.startDate filters ≠ EmptyString) ||
  bool_decide (Filters.endDate filters ≠ EmptyString) ||
  bool_decide (Filters.organization filters ≠ EmptyString).

End FilterBar.

(** ** The organizations of the [App] component *)

Module Organizations.
Import Js App.

(** The order of the default [sort()] on strings: by code unit. *)
Definition code_unit_order (a b : string) : Z :=
  match String.compare a b with
  | Lt => -1
  | Eq => 0
  | Gt => 1
  end.

(** [new Set(l)]: the elements in the order of their first insertion. *)
Fixpoint add_all (set : list string) (l : list string) : list string :=
  match l with
  | [] => set
  | x :: l' =>
      if existsb (String.eqb x) set then add_all set l' else add_all (set ++ [x]) l'
  end.

(** [events.map(e => e.organizer?.name).filter(Boolean)] *)
Definition names (events : list event) : list string :=
  map or_empty (List.filter truthy (map organizer_name events)).

Definition organizations (events : list event) : list string :=
  let orgs := add_all [] (names events) in
  sort code_unit_order orgs.

End Organizations.

(** ** The completeness indicator *)

Module CompletenessIndicator.

(** The classes and the label that the score decides; [None] is a score
    that is undefined (the default 0 applies) or null (which compares
    as 0). *)
Definition appearance (score : option Z) : string * string * string :=
  let score := default 0 score in
  if 80 <=? score then ("completeness-high", "bg-green-100", "Complete")
  else if 50 <=? score then ("completeness-medium", "bg-yellow-100", "Partial")
  else ("completeness-low", "bg-red-100", "Incomplete").

Definition label (score : option Z) : string := snd (appearance score).

(** [showTooltip && missingFields.length > 0] *)
Definition tooltip (showTooltip : bool) (missingFields : list string) : bool :=
  showTooltip && (0 <? length missingFields)%nat.

(** [s.replace(pattern, replacement)] for a pattern that is a string and a
    replacement without [$]: the first occurrence is replaced. *)
Fixpoint replace (pattern replacement s : string) : string :=
  if Py.startswith pattern s
  then replacement +:+ String.substring (String.length pattern)
                         (String.length s - String.length pattern) s
  else match s with
       | EmptyString => EmptyString
       | String c s' => String c (replace pattern replacement s')
       end.

Definition colorClass (score : option Z) : string := fst (fst (appearance score)).

(** The class of the progress ring: [colorClass.replace('text-', 'stroke-')] *)
Definition ring_class (score : option Z) : string :=
  replace "text-" "stroke-" (colorClass score).

End CompletenessIndicator.

(** ** What a run of the orchestrator adds up *)

Module Summary.
Import Py ScraperOrchestrator.

Section WithScrapers.
Context {event : Type}.
Variable scrape_source : gmap string string -> result (list event).
Variable str : exn -> string.

Definition succeeds (source : gmap string string) : bool :=
  match scrape_source source with
  | Ok _ => true
  | Raise _ => false
  end.

Definition events_of (source : gmap string string) : list event :=
  match scrape_source source with
  | Ok events => events
  | Raise _ => []
  end.

Definition error_of (source : gmap string string) : list error_entry :=
  match scrape_source source with
  | Ok _ => []
  | Raise e => [mk_error (default EmptyString (source !! "name")) (str e)]
  end.

(** Every source at which scraping fails has a name. *)
Definition failures_named (sources : list (gmap string string)) : Prop :=
  forall source, In source sources -> raises (scrape_source source) ->
    is_Some (source !! "name").

End WithScrapers.

End Summary.

(** ** The pauses of the exponential backoff *)

Module Backoff.

(** The pauses after the first [k] failed requests: 1, 2, 4, ... seconds. *)
Definition pauses_from (first k : nat) : list Z :=
  map (fun attempt => 2 ^ Z.of_nat attempt) (seq first k).

Definition pauses (k : nat) : list Z := pauses_from 0 k.

Definition total (sleeps : list Z) : Z := foldr Z.add 0 sleeps.

End Backoff.

(** ** Patterns that use up text *)

Module Patterns.




End Patterns.

(** ** More examples *)

Module MoreExamples.
Import Py Soup EventParser.


(** [<html><ul><li>Reading group, 12/03</li><li>Unsubscribe</li></ul>
      <div class="event-card">Lecture on 2024-05</div></html>] *)
Definition newsletter : node :=
  NTag "html" []
    [ NTag "ul" []
        [ NTag "li" [] [NText "Reading group, 12/03"];
          NTag "li" [] [NText "Unsubscribe"] ];
      NTag "div" [("class", "event-card")] [NText "Lecture on 2024-05"] ].

Definition apsa : gmap string string := {[ "id" := "apsa-events"; "name" := "APsA" ]}.
Definition bpc : gmap string string := {[ "id" := "bpc-events"; "name" := "BPC" ]}.

(** A scraper that finds three events at the first source and times out
    at every other one. *)
Definition scrape_apsa_only (source : gmap string string) : result (list nat) :=
  if bool_decide (source !! "id" = Some "apsa-events") then Ok [1; 2; 3]%nat
  else Raise (OtherError "Timeout").

Definition exception_name (e : exn) : string :=
  match e with
  | ParserError => "ParserError"
  | KeyError key => key
  | OtherError name => name
  end.

(** Requests that time out twice and then succeed; requests that always
    time out. *)
Definition third_time_lucky (n : nat) : ResilientScraper.response :=
  if (n <? 2)%nat then ResilientScraper.Transient (OtherError "Timeout")
  else ResilientScraper.Got "<html></html>".

Definition always_timeout (n : nat) : ResilientScraper.response :=
  ResilientScraper.Transient (OtherError "Timeout").

Definition online_only : App.Filters.t := App.Filters.mk "" ["online"] [] "" "" "".

Definition with_organizer (name : App.prop) (score : option Z) (date : App.prop)
    : App.event :=
  App.mk_event (App.Str "Seminar") App.Undefined (Some name) (App.Str "online")
    (App.Str "seminar") date score.

Definition catalog : list App.event :=
  [ with_organizer (App.Str "IPA") (Some 50) (App.Str "2024-05-01");
    with_organizer (App.Str "APsA") None App.Null;
    with_organizer (App.Str "") (Some 90) (App.Str "2024-03-10");
    with_organizer (App.Str "IPA") (Some 70) (App.Str "2024-04-02") ].

End MoreExamples.

(* ===================================================================== *)
(** * Part II. Properties                                                *)
(* ===================================================================== *)

(** ** The completeness score *)

Section ScoringFacts.
Import Scoring.
Context {event : Type} (has_field : event -> string -> bool).

(** The loop, started from any accumulator on any part of the table. *)
Lemma fold_visit (ev : event) (items : list (string * Z)) (score : Z)
    (missing : list string) :
  fold_left (visit has_field ev) items (score, missing) =
    (score + total (List.filter (fun item => has_field ev (fst item)) items),
     missing ++ map fst (List.filter (fun item => negb (has_field ev (fst item))) items)).
Proof.
  revert score missing.
  induction items as [|[field weight] items IH]; intros score missing; simpl.
  - by rewrite Z.add_0_r, app_nil_r.
  - destruct (has_field ev field); simpl; rewrite IH; f_equal.
    + lia.
    + by rewrite <- app_assoc.
Qed.

Lemma total_filter_bounds (p : string * Z -> bool) (items : list (string * Z)) :
  Forall (fun item => 0 <= snd item) items ->
  0 <= total (List.filter p items) <= total items.
Proof.
  induction 1 as [|item items Hitem _ IH]; simpl; [lia|].
  destruct (p item); simpl; lia.
Qed.

Lemma weights_nonneg : Forall (fun item : string * Z => 0 <= snd item) weights.
Proof. unfold weights. repeat constructor; simpl; lia. Qed.

(** C1. The completeness score is the sum of the weights of exactly the
    fields of the table that [has_field] finds present, so it lies between
    0 and 100; [missing_fields] lists exactly the fields of the table that
    are not present, in the order of the table.  The table is title 20,
    start_date 20, event_type 10, format 10, description 10, location 10,
    organizer.name 10, registration.url 10, which sums to 100. *)
Theorem calculate_completeness_spec (ev : event) :
  let present := fun item : string * Z => has_field ev (fst item) in
  let absent := fun item : string * Z => negb (has_field ev (fst item)) in
  let '(score, missing_fields) := calculate_completeness has_field ev in
  score = total (List.filter present weights) /\
  0 <= score <= 100 /\
  missing_fields = map fst (List.filter absent weights) /\
  weights = [ ("title", 20); ("start_date", 20); ("event_type", 10); ("format", 10);
              ("description", 10); ("location", 10); ("organizer.name", 10);
              ("registration.url", 10) ] /\
  total weights = 100.
Proof.
  intros present absent. unfold calculate_completeness.
  rewrite fold_visit, Z.add_0_l, app_nil_l.
  pose proof (total_filter_bounds present weights weights_nonneg) as Hb.
  change (total weights) with 100 in Hb.
  split; [reflexivity|]. split; [exact Hb|]. by repeat split.
Qed.

End ScoringFacts.

(** ** Format detection *)

Section FormatFacts.
Import Py Soup EventParser.

Lemma keywords_hybrid :
  FORMAT_KEYWORDS !!! "hybrid" = ["hybrid"; "both online and in-person"].
Proof. reflexivity. Qed.

Lemma keywords_online :
  FORMAT_KEYWORDS !!! "online" = ["online"; "virtual"; "webinar"; "zoom"; "via zoom"; "remote"].
Proof. reflexivity. Qed.

Lemma keywords_in_person :
  FORMAT_KEYWORDS !!! "in-person" = ["in-person"; "in person"; "venue"; "location:"; "address:"].
Proof. reflexivity. Qed.

Lemma any_keyword (text : string) (kws : list string) :
  any (fun kw => contains kw text) kws = true <->
  exists kw, In kw kws /\ contains kw text = true.
Proof. apply existsb_exists. Qed.

Lemma no_keyword (text : string) (kws : list string) :
  any (fun kw => contains kw text) kws = false <->
  ~ exists kw, In kw kws /\ contains kw text = true.
Proof. rewrite <- any_keyword. by destruct (any _ kws). Qed.

(** C2. Format detection looks for a hybrid keyword in the lowercased text
    first, then for an online keyword, then for an in-person keyword, and
    the first category found wins.  In particular a text with both a hybrid
    and an online keyword (say "hybrid" and "Zoom") is hybrid, never
    online. *)
Theorem detect_format_priority (e : node) :
  let text := lower (get_text e) in
  let mentions := fun kws : list string =>
    exists kw, In kw kws /\ contains kw text = true in
  let hybrid := mentions ["hybrid"; "both online and in-person"] in
  let online := mentions ["online"; "virtual"; "webinar"; "zoom"; "via zoom"; "remote"] in
  let in_person := mentions ["in-person"; "in person"; "venue"; "location:"; "address:"] in
  (hybrid -> _detect_format e = "hybrid") /\
  (~ hybrid -> online -> _detect_format e = "online") /\
  (~ hybrid -> ~ online -> in_person -> _detect_format e = "in-person") /\
  (hybrid -> online -> _detect_format e = "hybrid" /\ _detect_format e ≠ "online") /\
  (contains "hybrid" text = true -> contains "zoom" text = true ->
   _detect_format e = "hybrid").
Proof.
  intros text mentions hybrid online in_person.
  assert (Hh : hybrid -> _detect_format e = "hybrid").
  { intros Hy. unfold _detect_format. fold text. rewrite keywords_hybrid.
    by rewrite (proj2 (any_keyword _ _) Hy). }
  assert (Ho : ~ hybrid -> online -> _detect_format e = "online").
  { intros Hn Hy. unfold _detect_format. fold text.
    rewrite keywords_hybrid, keywords_online.
    rewrite (proj2 (no_keyword _ _) Hn). by rewrite (proj2 (any_keyword _ _) Hy). }
  assert (Hp : ~ hybrid -> ~ online -> in_person -> _detect_format e = "in-person").
  { intros Hn Hn' Hy. unfold _detect_format. fold text.
    rewrite keywords_hybrid, keywords_online, keywords_in_person.
    rewrite (proj2 (no_keyword _ _) Hn), (proj2 (no_keyword _ _) Hn').
    by rewrite (proj2 (any_keyword _ _) Hy). }
  split; [exact Hh|]. split; [exact Ho|]. split; [exact Hp|]. split.
  - intros Hy _. by rewrite (Hh Hy).
  - intros Hy _. apply Hh. exists "hybrid". split; [by left | exact Hy].
Qed.

End FormatFacts.

(** ** Selection in a fragment *)

Section SoupFacts.
Import Py Soup.

Lemma select_one_matches (e n : node) (sel : selector) :
  select_one e sel = Some n -> matches sel n = true.
Proof. unfold select_one. intros Hfind. by apply find_some in Hfind as [_ ?]. Qed.

Lemma has_attr_get (n : node) (a : string) :
  has_attr n a = true <-> exists v, get_attr n a = Some v.
Proof. unfold has_attr. rewrite bool_decide_eq_true. reflexivity. Qed.

Lemma has_attr_none (n : node) (a : string) :
  has_attr n a = false <-> get_attr n a = None.
Proof.
  unfold has_attr. rewrite bool_decide_eq_false.
  destruct (get_attr n a) as [v|]; split; intros Hx; try done.
  exfalso. apply Hx. by exists v.
Qed.

Lemma get_item_ok (n : node) (a v : string) :
  get_attr n a = Some v -> get_item n a = Ok v.
Proof. unfold get_item. by intros ->. Qed.

(** A link selected by [a[href*="v1"], a[href*="v2"]] has an [href] that
    contains one of the two tokens. *)
Lemma select_one_href (e n : node) (v1 v2 : string) :
  select_one e [ByTagAttrSub "a" "href" v1; ByTagAttrSub "a" "href" v2] = Some n ->
  exists href, get_attr n "href" = Some href /\
    (contains v1 href = true \/ contains v2 href = true).
Proof.
  intros Hsel. apply select_one_matches in Hsel.
  unfold matches in Hsel. simpl in Hsel. rewrite orb_false_r in Hsel.
  apply orb_true_iff in Hsel as [Hm | Hm]; apply andb_true_iff in Hm as [_ Hm];
    destruct (get_attr n "href") as [href|]; try discriminate;
    exists href; auto.
Qed.

(** What [select_one] selects: the first node below [e], in document
    order, that the selector matches. *)
Lemma select_one_first (e n : node) (sel : selector) :
  select_one e sel = Some n <->
  exists before after, descendants e = before ++ n :: after /\
    matches sel n = true /\ Forall (fun m => matches sel m = false) before.
Proof.
  unfold select_one. generalize (descendants e) as l. intros l. split.
  - induction l as [|m l IH]; simpl; [done|].
    destruct (matches sel m) eqn:Hm.
    + intros [= <-]. exists [], l. auto.
    + intros Hfind. destruct (IH Hfind) as (before & after & -> & Hn & Hbefore).
      exists (m :: before), after. auto.
  - intros (before & after & -> & Hn & Hbefore).
    induction Hbefore as [|m before Hm _ IH]; simpl.
    + by rewrite Hn.
    + by rewrite Hm.
Qed.

(** It selects something as soon as some node below [e] matches. *)
Lemma select_one_some (e n : node) (sel : selector) :
  In n (descendants e) -> matches sel n = true -> is_Some (select_one e sel).
Proof.
  intros Hin Hn. unfold select_one.
  destruct (List.find (matches sel) (descendants e)) as [m|] eqn:Hfind; [by eexists|].
  rewrite (find_none _ _ Hfind n Hin) in Hn. discriminate.
Qed.

(** Induction on fragments. *)
Lemma node_induction (P : node -> Prop) :
  (forall s, P (NText s)) ->
  (forall name attrs children, Forall P children -> P (NTag name attrs children)) ->
  forall n, P n.
Proof.
  intros Htext Htag. fix IH 1. intros [s | name attrs children]; [apply Htext|].
  apply Htag. induction children as [|c children IHc]; constructor; [apply IH | exact IHc].
Qed.

(** The text nodes of a node below [e] are text nodes of [e]. *)
Lemma strings_descendant (e n : node) :
  In n (descendants e) -> incl (strings n) (strings e).
Proof.
  revert n. induction e as [s | name attrs children IH] using node_induction;
    intros n; simpl; [done|].
  rewrite in_flat_map. intros (c & Hc & Hn) s Hs.
  apply in_flat_map. exists c. split; [done|].
  rewrite List.Forall_forall in IH.
  destruct Hn as [<- | Hn]; [done|]. by apply (IH c Hc n Hn).
Qed.

Lemma select_one_descendant (e n : node) (sel : selector) :
  select_one e sel = Some n -> In n (descendants e).
Proof. unfold select_one. intros Hfind. by apply find_some in Hfind as [? _]. Qed.

Lemma first_some_None {A B} (f : A -> option B) (l : list A) :
  first_some f l = None <-> forall x, In x l -> f x = None.
Proof.
  induction l as [|x l IH]; simpl.
  - split; [intros _ ? [] | done].
  - destruct (f x) eqn:Hfx.
    + split; [done | intros Hall]. specialize (Hall x (or_introl eq_refl)). congruence.
    + rewrite IH. split.
      * intros Hall y [<- | Hy]; auto.
      * intros Hall y Hy. apply Hall. by right.
Qed.

Lemma first_some_Some {A B} (f : A -> option B) (l : list A) (b : B) :
  first_some f l = Some b -> exists x, In x l /\ f x = Some b.
Proof.
  induction l as [|x l IH]; simpl; [done|].
  destruct (f x) eqn:Hfx.
  - intros [= <-]. exists x. auto.
  - intros Hl. destruct (IH Hl) as (y & Hy & Hfy). exists y. auto.
Qed.

End SoupFacts.

(** ** Date extraction *)

Section DateFacts.
Import Py Soup EventParser.
Context `{DateUtil}.

Lemma extract_date_attribute (e d : node) (v : string) :
  select_one e date_selector = Some d ->
  get_attr d "datetime" = Some v ->
  _extract_date e =
    match date_parser_parse v with
    | Some dt => Ok (Some dt)
    | None => Raise ParserError
    end.
Proof.
  intros Hsel Hattr. unfold _extract_date. rewrite Hsel.
  rewrite (proj2 (has_attr_get d "datetime")) by eauto.
  by rewrite (get_item_ok _ _ _ Hattr).
Qed.

Lemma extract_date_text (e : node) :
  (forall d, select_one e date_selector = Some d -> get_attr d "datetime" = None) ->
  _extract_date e = Ok (parse_date_text (date_text e)).
Proof.
  intros Hno. unfold _extract_date, date_text.
  destruct (select_one e date_selector) as [d|]; [|done].
  by rewrite (proj2 (has_attr_none d "datetime")) by auto.
Qed.

(** C3, as the code has it.  When the date-labeled element carries the
    machine-readable attribute, the attribute alone decides: the result is
    what the strict parser makes of it, and its failure is raised rather
    than handed to a later stage.  Otherwise one text is read: that of the
    date-labeled element when there is one, the whole text of the fragment
    only when there is none; the lenient parser comes first, then the date
    patterns in order, the first pattern whose match the parser reads
    giving the date. *)
Theorem extract_date_stages (e : node) :
  (forall d v, select_one e date_selector = Some d -> get_attr d "datetime" = Some v ->
     _extract_date e =
       match date_parser_parse v with
       | Some dt => Ok (Some dt)
       | None => Raise ParserError
       end) /\
  ((forall d, select_one e date_selector = Some d -> get_attr d "datetime" = None) ->
     _extract_date e =
       Ok (first_some (fun stage : string -> option datetime => stage (date_text e))
             [lenient; patterns])).
Proof.
  split.
  - intros d v. apply extract_date_attribute.
  - intros Hno. rewrite (extract_date_text e Hno).
    unfold parse_date_text, lenient, patterns, date_by_pattern.
    generalize DATE_PATTERNS as ps. intros ps. simpl.
    destruct (date_parser_parse_fuzzy (date_text e)); [done|].
    by destruct (first_some _ ps).
Qed.

(** Date extraction raises exactly when the attribute is there and the
    strict parser cannot read it. *)
Lemma extract_date_raises (e : node) :
  raises (_extract_date e) <->
  exists d v, select_one e date_selector = Some d /\
    get_attr d "datetime" = Some v /\ date_parser_parse v = None.
Proof.
  split.
  - intros [x Hx]. unfold _extract_date in Hx.
    destruct (select_one e date_selector) as [d|]; [|done].
    destruct (has_attr d "datetime") eqn:Hattr; [|done].
    apply has_attr_get in Hattr as [v Hv]. exists d, v.
    rewrite (get_item_ok _ _ _ Hv) in Hx. simpl in Hx.
    destruct (date_parser_parse v) eqn:Hp; [done|]. auto.
  - intros (d & v & Hsel & Hattr & Hp).
    rewrite (extract_date_attribute e d v Hsel Hattr), Hp. by eexists.
Qed.

End DateFacts.

(** ** The assembler *)

Section AssemblerFacts.
Import Py Soup EventParser.

Lemma extract_location_ok (e : node) :
  exists location, _extract_location e = Ok location.
Proof.
  unfold _extract_location.
  destruct (select_one e zoom_selector) as [link|] eqn:Hlink; [|by eexists].
  destruct (select_one_href _ _ _ _ Hlink) as (href & Hhref & _).
  rewrite (get_item_ok _ _ _ Hhref). by eexists.
Qed.

Lemma extract_registration_ok (e : node) :
  exists registration, _extract_registration e = Ok registration.
Proof.
  unfold _extract_registration.
  destruct (select_one e registration_selector) as [link|] eqn:Hlink.
  - destruct (select_one_href _ _ _ _ Hlink) as (href & Hhref & _).
    rewrite (get_item_ok _ _ _ Hhref). unfold mbind, result_bind, bind.
    match goal with |- context [first_some ?f ?l] => destruct (first_some f l) end;
      by eexists.
  - unfold mbind, result_bind, bind.
    match goal with |- context [first_some ?f ?l] => destruct (first_some f l) end;
      by eexists.
Qed.

Context `{DateUtil}.

(** The record is built whenever date extraction returns, with the title
    and the date the extractors found. *)
Lemma build_event_data_ok (e : node) (ctx : gmap string string)
    (found : option datetime) :
  _extract_date e = Ok found ->
  exists data, build_event_data e ctx = Ok data /\
    title data = _extract_title e /\ start_date data = found /\
    format data = _detect_format e.
Proof.
  intros Hdate. unfold build_event_data. rewrite Hdate.
  destruct (extract_location_ok e) as [location ->].
  destruct (extract_registration_ok e) as [registration ->].
  simpl. by eexists.
Qed.

Lemma build_event_data_raises (e : node) (ctx : gmap string string) :
  raises (build_event_data e ctx) <-> raises (_extract_date e).
Proof.
  split.
  - intros [x Hx]. destruct (_extract_date e) as [found|y] eqn:Hdate; [|by eexists].
    destruct (build_event_data_ok e ctx found Hdate) as (data & Hdata & _).
    congruence.
  - intros [x Hx]. unfold build_event_data. rewrite Hx. by eexists.
Qed.

Context `{EventClass}.

(** C4, as the code has it.  The assembler never raises.  It returns
    [None] exactly when an extractor raises, which only date extraction
    does, on a machine-readable date attribute the strict parser cannot
    read, or when the [Event] constructor rejects the record; a fragment
    whose extractors return and whose record the constructor accepts
    yields that event, with the title and the date that were extracted. *)
Theorem parse_event_skips (e : node) (ctx : gmap string string) :
  (exists r, parse_event_from_html e ctx = Ok r) /\
  (parse_event_from_html e ctx = Ok None <->
     raises (_extract_date e) \/
     exists data, build_event_data e ctx = Ok data /\ raises (Event_init data)) /\
  (raises (_extract_date e) <->
     exists d v, select_one e date_selector = Some d /\
       get_attr d "datetime" = Some v /\ date_parser_parse v = None) /\
  (forall found, _extract_date e = Ok found ->
     exists data, build_event_data e ctx = Ok data /\
       title data = _extract_title e /\ start_date data = found /\
       forall event, Event_init data = Ok event ->
         parse_event_from_html e ctx = Ok (Some event)).
Proof.
  split; [|split; [|split]].
  - unfold parse_event_from_html.
    destruct (build_event_data e ctx) as [data|x]; simpl; [|by eexists].
    destruct (Event_init data); simpl; by eexists.
  - unfold parse_event_from_html. split.
    + destruct (build_event_data e ctx) as [data|x] eqn:Hdata; simpl.
      * destruct (Event_init data) as [event|y] eqn:Hinit; simpl; [done|].
        intros _. right. exists data. split; [done|]. by exists y.
      * intros _. left. apply (build_event_data_raises e ctx). by exists x.
    + intros [Hraise | (data & Hdata & [y Hy])].
      * apply (build_event_data_raises e ctx) in Hraise as [x ->]. done.
      * rewrite Hdata. simpl. by rewrite Hy.
  - apply extract_date_raises.
  - intros found Hdate.
    destruct (build_event_data_ok e ctx found Hdate) as (data & Hdata & Ht & Hd & _).
    exists data. repeat split; try done.
    intros event Hinit. unfold parse_event_from_html. rewrite Hdata. simpl.
    by rewrite Hinit.
Qed.

End AssemblerFacts.

(** ** The parser on the example fragments *)

Section ParserExamples.
Import Py Soup EventParser Examples.

(** A text with "Hybrid" and "Zoom" is hybrid. *)
Lemma detect_format_hybrid_on_zoom :
  contains "hybrid" (lower (get_text hybrid_on_zoom)) = true /\
  contains "zoom" (lower (get_text hybrid_on_zoom)) = true /\
  _detect_format hybrid_on_zoom = "hybrid".
Proof.
  split; [reflexivity|]. split; [reflexivity|].
  apply (proj2 (proj2 (proj2 (proj2 (detect_format_priority hybrid_on_zoom)))));
    reflexivity.
Defined.

(** The attribute "2024-01-15" wins over the text "sometime in spring". *)
Lemma extract_date_spring :
  @_extract_date IsoDates.dateutil spring = Ok (Some (mk_datetime 2024 1 15 0 0 0)).
Proof.
  rewrite (proj1 (@extract_date_stages IsoDates.dateutil spring)
             (NTag "time" [("datetime", "2024-01-15")] []) "2024-01-15"
             eq_refl eq_refl).
  reflexivity.
Defined.

(** C3 as stated fails: a date-labeled element that reads "TBA" next to a
    paragraph that reads "2024-01-15".  The stages of the specification
    reach the whole text and find the date; the code reads the labeled text
    only and finds nothing. *)
Lemma extract_date_ignores_text_outside_label :
  select_one date_outside_label date_selector = Some (NTag "span" [("class", "date")] [NText "TBA"]) /\
  get_text date_outside_label = "TBA 2024-01-15" /\
  @extract_date_staged IsoDates.dateutil date_outside_label =
    Some (mk_datetime 2024 1 15 0 0 0) /\
  @_extract_date IsoDates.dateutil date_outside_label = Ok None.
Proof. repeat split; reflexivity. Qed.

(** C4 as stated fails: a fragment with the title "Clinical Seminar" and
    a date attribute that reads "TBA" is skipped, although a title was
    extracted. *)
Lemma titled_fragment_is_skipped :
  _extract_title unreadable_attribute = "Clinical Seminar" /\
  @_extract_date IsoDates.dateutil unreadable_attribute = Raise ParserError /\
  @parse_event_from_html IsoDates.dateutil validated_event unreadable_attribute org_a
    = Ok None.
Proof. repeat split; reflexivity. Qed.

(** The scenario of the specification is assembled. *)
Lemma clinical_seminar_is_assembled :
  exists event,
    @parse_event_from_html IsoDates.dateutil validated_event clinical_seminar org_a
      = Ok (Some event) /\
    title event = "Clinical Seminar" /\
    start_date event = Some (mk_datetime 2024 3 10 0 0 0) /\
    format event = "online".
Proof.
  destruct (proj2 (proj2 (proj2
    (@parse_event_skips IsoDates.dateutil validated_event clinical_seminar org_a)))
    (Some (mk_datetime 2024 3 10 0 0 0)) eq_refl) as (data & Hdata & Ht & Hd & Hev).
  exists data. split; [apply Hev|].
  - simpl. rewrite Ht, Hd. reflexivity.
  - split; [exact Ht|]. split; [exact Hd|].
    vm_compute in Hdata. by injection Hdata as <-.
Defined.

End ParserExamples.

(** ** The default format *)

Section DefaultFormatFacts.
Import Py Soup EventParser Examples.

(** C6, as the code has it.  When the lowercased text contains no keyword
    of any of the three categories, the format is in-person exactly when
    the fragment has a location-like element and online exactly when it
    has none.  The result is the bare format name. *)
Theorem detect_format_default (e : node) :
  (forall kw,
     In kw ["hybrid"; "both online and in-person";
            "online"; "virtual"; "webinar"; "zoom"; "via zoom"; "remote";
            "in-person"; "in person"; "venue"; "location:"; "address:"] ->
     contains kw (lower (get_text e)) = false) ->
  (_detect_format e = "in-person" <-> is_Some (select_one e location_selector)) /\
  (_detect_format e = "online" <-> select_one e location_selector = None).
Proof.
  intros Hnone. unfold _detect_format.
  rewrite keywords_hybrid, keywords_online, keywords_in_person.
  assert (Hany : forall kws,
    incl kws ["hybrid"; "both online and in-person";
              "online"; "virtual"; "webinar"; "zoom"; "via zoom"; "remote";
              "in-person"; "in person"; "venue"; "location:"; "address:"] ->
    any (fun kw => contains kw (lower (get_text e))) kws = false).
  { intros kws Hincl. apply no_keyword. intros (kw & Hin & Hkw).
    rewrite (Hnone kw (Hincl kw Hin)) in Hkw. discriminate. }
  rewrite !Hany by (intros kw Hin; simpl in *; tauto).
  destruct (select_one e location_selector) as [loc|].
  - rewrite bool_decide_eq_true_2 by eauto. split; split; intros Hx; by eauto.
  - rewrite bool_decide_eq_false_2 by (by intros [? ?]).
    split; split; intros Hx; try done; by destruct Hx.
Qed.

Lemma detect_format_default_unstated :
  (forall kw,
     In kw ["hybrid"; "both online and in-person";
            "online"; "virtual"; "webinar"; "zoom"; "via zoom"; "remote";
            "in-person"; "in person"; "venue"; "location:"; "address:"] ->
     contains kw (lower (get_text unstated_format)) = false) /\
  _detect_format unstated_format = "online".
Proof.
  assert (Hnone : forall kw,
     In kw ["hybrid"; "both online and in-person";
            "online"; "virtual"; "webinar"; "zoom"; "via zoom"; "remote";
            "in-person"; "in person"; "venue"; "location:"; "address:"] ->
     contains kw (lower (get_text unstated_format)) = false).
  { intros kw Hin. simpl in Hin.
    repeat (destruct Hin as [<- | Hin]; [reflexivity|]). destruct Hin. }
  split; [exact Hnone|].
  apply (proj2 (detect_format_default unstated_format Hnone)). reflexivity.
Defined.

(** C6 as stated fails: nothing marks a defaulted format.  A fragment that
    states "Online" and one that states no format and has no location get
    the same format, and indeed the same record. *)
Lemma default_format_is_not_flagged :
  contains "online" (lower (get_text stated_online)) = true /\
  any (fun kw => contains kw (lower (get_text unstated_format)))
    ["hybrid"; "both online and in-person";
     "online"; "virtual"; "webinar"; "zoom"; "via zoom"; "remote";
     "in-person"; "in person"; "venue"; "location:"; "address:"] = false /\
  select_one unstated_format location_selector = None /\
  _detect_format stated_online = "online" /\
  _detect_format unstated_format = "online" /\
  @build_event_data IsoDates.dateutil stated_online org_a =
    @build_event_data IsoDates.dateutil unstated_format org_a.
Proof. repeat split; vm_compute; reflexivity. Qed.

End DefaultFormatFacts.

(** ** Title extraction *)

Section TitleFacts.
Import Py Soup EventParser Examples.

Lemma slice_to_empty (n : nat) (s : string) :
  slice_to (S n) s = EmptyString -> s = EmptyString.
Proof. by destruct s. Qed.

Lemma slice_to_length (n : nat) (s : string) :
  (String.length (slice_to n s) <= n)%nat.
Proof.
  revert s. induction n as [|n IH]; intros [|c s]; simpl; try lia.
  specialize (IH s). lia.
Qed.

Lemma append_empty (s t : string) :
  String.append s t = EmptyString <-> s = EmptyString /\ t = EmptyString.
Proof. destruct s; simpl; split; try done; by intros [? ?]. Qed.

Lemma join_empty (l : list string) :
  join l = EmptyString <-> Forall (fun s => s = EmptyString) l.
Proof.
  induction l as [|s l IH]; simpl.
  - split; [constructor | done].
  - rewrite append_empty, IH. split.
    + intros [? ?]. by constructor.
    + by inversion 1.
Qed.

(** The stripped text of a fragment is empty exactly when every text node
    of the fragment is blank. *)
Lemma get_text_strip_empty (e : node) :
  get_text_strip e = EmptyString <->
  Forall (fun s => strip s = EmptyString) (strings e).
Proof.
  unfold get_text_strip, stripped_strings. rewrite join_empty.
  induction (strings e) as [|s l IH]; simpl.
  - split; constructor.
  - rewrite filter_cons. destruct (decide (strip s ≠ EmptyString)) as [Hs|Hs].
    + split; inversion 1; by subst.
    + rewrite IH. apply dec_stable in Hs. split.
      * intros Hl. by constructor.
      * by inversion 1.
Qed.

Lemma lstrip_head (s r : string) (c : ascii) :
  lstrip s = String c r -> isspace c = false.
Proof.
  induction s as [|d s IH]; simpl; [done|].
  destruct (isspace d) eqn:Hd; [exact IH|]. by intros [= <- _].
Qed.

Lemma rstrip_nonspace (c : ascii) (r : string) :
  isspace c = false -> rstrip (String c r) ≠ EmptyString.
Proof. intros Hc. simpl. rewrite Hc. by destruct (rstrip r). Qed.

(** A text strips to nothing exactly when it is white space throughout. *)
Lemma strip_empty (s : string) :
  strip s = EmptyString <-> lstrip s = EmptyString.
Proof.
  unfold strip. split; [|by intros ->].
  destruct (lstrip s) as [|c r] eqn:Hs; [done|].
  intros Hr. by apply rstrip_nonspace in Hr; [|apply (lstrip_head s r c)].
Qed.

Lemma lstrip_append (s t : string) :
  lstrip s = EmptyString -> lstrip (String.append s t) = lstrip t.
Proof.
  induction s as [|c s IH]; simpl; [done|]. by destruct (isspace c).
Qed.

Lemma join_blank (l : list string) :
  Forall (fun s => strip s = EmptyString) l -> strip (join l) = EmptyString.
Proof.
  intros Hl. apply strip_empty. induction Hl as [|s l Hs _ IH]; simpl; [done|].
  apply strip_empty in Hs. by rewrite (lstrip_append s _ Hs).
Qed.

Lemma title_by_nonempty (e : node) (sel : selector) (t : string) :
  title_by e sel = Some t -> t ≠ EmptyString.
Proof.
  unfold title_by. destruct (select_one e sel) as [n|]; [|done].
  case_bool_decide; [|done]. by intros [= <-].
Qed.

(** In a fragment whose text nodes are all blank no selector finds a
    title. *)
Lemma title_by_blank (e : node) (sel : selector) :
  Forall (fun s => strip s = EmptyString) (strings e) -> title_by e sel = None.
Proof.
  intros Hblank. unfold title_by.
  destruct (select_one e sel) as [n|] eqn:Hn; [|done].
  rewrite bool_decide_eq_false_2; [done|]. intros Hne. apply Hne.
  unfold get_text. apply join_blank.
  rewrite List.Forall_forall in *. intros s Hs. apply Hblank.
  by apply (strings_descendant e n (select_one_descendant e n sel Hn)).
Qed.

(** C7. Title extraction is a total function to strings: it returns no
    null and raises nothing.  When every structural selector fails (it
    selects nothing, or an element whose stripped text is empty), the
    title is the first 200 characters of the fragment's text with every
    text node stripped.  The title is empty only if the fragment has no
    text but white space (and it is empty then), which is when that
    stripped text is empty. *)
Theorem extract_title_fallback (e : node) :
  ((forall sel t, In sel title_selectors -> select_one e sel = Some t ->
      strip (get_text t) = EmptyString) ->
   _extract_title e = slice_to 200 (get_text_strip e)) /\
  (_extract_title e = EmptyString <->
   Forall (fun s => strip s = EmptyString) (strings e)) /\
  (get_text_strip e = EmptyString <->
   Forall (fun s => strip s = EmptyString) (strings e)) /\
  (String.length (slice_to 200 (get_text_strip e)) <= 200)%nat.
Proof.
  split; [|split; [|split]].
  - intros Hfail. unfold _extract_title.
    assert (Hnone : first_some (title_by e) title_selectors = None).
    { apply first_some_None. intros sel Hsel. unfold title_by.
      destruct (select_one e sel) as [t|] eqn:Ht; [|done].
      rewrite (Hfail sel t Hsel Ht). by rewrite bool_decide_eq_false_2 by auto. }
    by rewrite Hnone.
  - unfold _extract_title. split.
    + destruct (first_some (title_by e) title_selectors) as [t|] eqn:Hfirst.
      * intros ->. apply first_some_Some in Hfirst as (sel & _ & Hsel).
        by apply title_by_nonempty in Hsel.
      * intros Hslice. apply slice_to_empty in Hslice.
        by apply get_text_strip_empty.
    + intros Hblank.
      assert (Hnone : first_some (title_by e) title_selectors = None).
      { apply first_some_None. intros sel _. by apply title_by_blank. }
      rewrite Hnone. by rewrite (proj2 (get_text_strip_empty e) Hblank).
  - apply get_text_strip_empty.
  - apply slice_to_length.
Qed.

(** A fragment with nothing but white space has the empty title. *)
Lemma extract_title_blank :
  _extract_title blank = EmptyString /\
  get_text_strip blank = EmptyString /\
  strings blank = ["  "].
Proof.
  assert (Hblank : Forall (fun s => strip s = EmptyString) (strings blank)).
  { by repeat constructor. }
  split; [exact (proj2 (proj1 (proj2 (extract_title_fallback blank))) Hblank)|].
  split; [|reflexivity].
  exact (proj2 (proj1 (proj2 (proj2 (extract_title_fallback blank)))) Hblank).
Defined.

End TitleFacts.

(** ** Location extraction *)

Section LocationFacts.
Import Py Soup EventParser Examples.

(** A text has at least two comma-separated segments exactly when it has
    a comma. *)
Lemma split_length (sep : ascii) (s : string) :
  (1 <= length (split sep s))%nat.
Proof.
  induction s as [|c s IH]; simpl; [lia|].
  destruct (Ascii.eqb c sep); simpl; [lia|].
  destruct (split sep s); simpl in *; lia.
Qed.

Lemma contains_cons (needle : string) (c : ascii) (s : string) :
  contains needle (String c s) = startswith needle (String c s) || contains needle s.
Proof. reflexivity. Qed.

Lemma split_two_segments (s : string) :
  (2 <= length (split "," s))%nat <-> contains "," s = true.
Proof.
  induction s as [|c s IH]; [simpl; split; [lia | done]|].
  rewrite contains_cons. pose proof (split_length "," s) as Hlen.
  cbn [split startswith]. rewrite (Ascii.eqb_sym c ",").
  destruct (Ascii.eqb "," c) eqn:Hc; simpl.
  - split; [done | lia].
  - rewrite <- IH. destruct (split "," s); simpl in *; lia.
Qed.

Lemma first_item_strip (l : list string) :
  first_item (map strip l) = strip (first_item l).
Proof. by destruct l. Qed.

Lemma last_item_strip (l : list string) :
  last_item (map strip l) = strip (last_item l).
Proof.
  unfold last_item. induction l as [|s l IH]; [reflexivity|].
  destruct l; [reflexivity|]. exact IH.
Qed.

(** C8. Location extraction returns a dictionary.  When the fragment has a
    location-labeled element, its stripped text is the venue; the city and
    the country are set, to the first and to the last comma-separated
    segment (each stripped), exactly when the text has at least two such
    segments.  Whatever the venue, the first link whose target contains
    "zoom" or "meet" gives the online URL, its target; so the online URL
    is set as soon as the fragment has such a link, and only then. *)
Theorem extract_location_spec (e : node) :
  exists location, _extract_location e = Ok location /\
    (forall loc_elem, select_one e location_selector = Some loc_elem ->
       let text := get_text_strip loc_elem in
       let segments := split "," text in
       location !! "venue" = Some text /\
       ((2 <= length segments)%nat ->
          location !! "city" = Some (strip (first_item segments)) /\
          location !! "country" = Some (strip (last_item segments))) /\
       ((length segments < 2)%nat ->
          location !! "city" = None /\ location !! "country" = None)) /\
    (forall link, select_one e zoom_selector = Some link ->
       exists href, get_attr link "href" = Some href /\
         (contains "zoom" href = true \/ contains "meet" href = true) /\
         location !! "online_url" = Some href) /\
    (select_one e zoom_selector = None -> location !! "online_url" = None) /\
    (forall n target, In n (descendants e) -> has_tag "a" n = true ->
       get_attr n "href" = Some target ->
       contains "zoom" target = true \/ contains "meet" target = true ->
       exists href, location !! "online_url" = Some href /\
         (contains "zoom" href = true \/ contains "meet" href = true)).
Proof.
  assert (Hsome : forall n target, In n (descendants e) -> has_tag "a" n = true ->
       get_attr n "href" = Some target ->
       contains "zoom" target = true \/ contains "meet" target = true ->
       is_Some (select_one e zoom_selector)).
  { intros n target Hin Htag Hhref Htoken. apply (select_one_some e n); [done|].
    unfold matches, zoom_selector. simpl. rewrite Htag, Hhref. simpl.
    destruct Htoken as [-> | ->]; [done | apply orb_true_r]. }
  revert Hsome. unfold _extract_location.
  set (venue := match select_one e location_selector with
                | Some loc_elem => _
                | None => _
                end).
  assert (Hurl : venue !! "online_url" = None).
  { subst venue. destruct (select_one e location_selector) as [loc|]; [|done].
    by destruct (2 <=? _)%nat. }
  assert (Hvenue : forall loc_elem, select_one e location_selector = Some loc_elem ->
       let text := get_text_strip loc_elem in
       let segments := split "," text in
       venue !! "venue" = Some text /\
       ((2 <= length segments)%nat ->
          venue !! "city" = Some (strip (first_item segments)) /\
          venue !! "country" = Some (strip (last_item segments))) /\
       ((length segments < 2)%nat ->
          venue !! "city" = None /\ venue !! "country" = None)).
  { intros loc Hloc text segments. subst venue. rewrite Hloc. fold text. fold segments.
    rewrite length_map.
    destruct (2 <=? length segments)%nat eqn:Hlen.
    - apply Nat.leb_le in Hlen. rewrite first_item_strip, last_item_strip.
      split; [done|]. split; [done|]. lia.
    - apply Nat.leb_gt in Hlen. split; [done|]. split; [lia|done]. }
  clearbody venue. intros Hsome.
  destruct (select_one e zoom_selector) as [link|] eqn:Hlink.
  - destruct (select_one_href _ _ _ _ Hlink) as (href & Hhref & Htoken).
    rewrite (get_item_ok _ _ _ Hhref). eexists. split; [reflexivity|].
    split; [|split; [|split; [done|]]].
    + intros loc Hloc. destruct (Hvenue loc Hloc) as (Hv & Hc & Hn).
      rewrite !lookup_insert_ne by done. auto.
    + intros ? [= <-]. exists href. by rewrite lookup_insert_eq.
    + intros _ _ _ _ _ _. exists href. by rewrite lookup_insert_eq.
  - eexists. split; [reflexivity|]. split; [exact Hvenue|]. split; [done|].
    split; [auto|]. intros n target Hin Htag Hhref Htoken.
    by destruct (Hsome n target Hin Htag Hhref Htoken).
Qed.

(** The Freud Museum on Zoom: venue, city, country and online URL. *)
Lemma extract_location_museum :
  exists location, _extract_location museum = Ok location /\
    location !! "venue" = Some "Freud Museum,London , UK" /\
    location !! "city" = Some "Freud Museum" /\
    location !! "country" = Some "UK" /\
    location !! "online_url" = Some "https://zoom.us/j/1".
Proof.
  destruct (extract_location_spec museum) as (location & Hloc & Hvenue & Hlink & _ & _).
  exists location. split; [exact Hloc|].
  destruct (Hvenue _ eq_refl) as (Hv & Hc & _).
  destruct (Hc ltac:(vm_compute; lia)) as [Hcity Hcountry].
  destruct (Hlink _ eq_refl) as (href & Hhref & _ & Hurl).
  injection Hhref as <-. auto.
Defined.

End LocationFacts.

(** ** Merging duplicates *)

Section MergeFacts.
Import Scoring Merger Examples.

Lemma total_filter_mono (p q : string * Z -> bool) (items : list (string * Z)) :
  Forall (fun item => 0 <= snd item) items ->
  (forall item, p item = true -> q item = true) ->
  total (List.filter p items) <= total (List.filter q items).
Proof.
  intros Hpos Hpq. induction Hpos as [|item items Hitem _ IH]; simpl; [lia|].
  destruct (p item) eqn:Hp.
  - rewrite (Hpq item Hp). simpl. lia.
  - destruct (q item); simpl; lia.
Qed.

Lemma score_total (fs : gmap string value) :
  fst (score fs) = total (List.filter (fun item => has_field fs (fst item)) weights).
Proof.
  unfold score, calculate_completeness. rewrite fold_visit. simpl. lia.
Qed.

(** More fields present, no lower score. *)
Lemma score_mono (fs1 fs2 : gmap string value) :
  (forall field, has_field fs1 field = true -> has_field fs2 field = true) ->
  fst (score fs1) <= fst (score fs2).
Proof.
  intros Hsub. rewrite !score_total.
  apply total_filter_mono; [apply weights_nonneg|]. intros item. apply Hsub.
Qed.

Lemma scored_score (e : ScoredEvent) :
  scored e -> completeness_score e = fst (score (fields e)).
Proof. unfold scored. by intros <-. Qed.

Lemma lookup_merged (newer : bool) (fs1 fs2 : gmap string value) (field : string) :
  merge (merge_value newer) fs1 fs2 !! field = merge_value newer (fs1 !! field) (fs2 !! field).
Proof.
  rewrite lookup_merge. unfold diag_None.
  destruct (fs1 !! field), (fs2 !! field); try done. by destruct newer.
Qed.

Lemma merge_value_present (newer : bool) (v1 v2 : option value) :
  present_opt (merge_value newer v1 v2) = present_opt v1 || present_opt v2.
Proof.
  unfold merge_value.
  destruct (present_opt v1) eqn:H1, (present_opt v2) eqn:H2, newer; simpl; congruence.
Qed.

Lemma merge_value_choice (newer : bool) (v1 v2 : option value) :
  merge_value newer v1 v2 = v1 \/ merge_value newer v1 v2 = v2.
Proof.
  unfold merge_value.
  destruct (present_opt v1), (present_opt v2), newer; auto.
Qed.

(** C5. Two ScoredEvents A and B with the same fingerprint merge into a
    record that the scorer scored again; its score is at least the score
    of each, so at least 80 when A has 40 and B has 80.  Every field present
    in A or in B is present in the merged record; each merged value is the
    value of A or the value of B, never a combination; it is B's when only
    B has the field present, A's when only A has it, and that of the more
    recently scraped member when both have it. *)
Theorem merge_duplicates_monotone (hash : string * option (Z * Z * Z) -> Z)
    (A B : ScoredEvent) :
  scored A -> scored B -> fingerprint hash A = fingerprint hash B ->
  let M := merge_duplicates A B in
  scored M /\
  completeness_score A <= completeness_score M /\
  completeness_score B <= completeness_score M /\
  (completeness_score A = 40 -> completeness_score B = 80 -> 80 <= completeness_score M) /\
  (forall field, has_field (fields M) field =
     has_field (fields A) field || has_field (fields B) field) /\
  (forall field, fields M !! field = fields A !! field \/
                 fields M !! field = fields B !! field) /\
  (forall field, has_field (fields B) field = true ->
     has_field (fields A) field = false -> fields M !! field = fields B !! field) /\
  (forall field, has_field (fields A) field = true ->
     has_field (fields B) field = false -> fields M !! field = fields A !! field) /\
  (forall field, has_field (fields A) field = true -> has_field (fields B) field = true ->
     (scraped_at A < scraped_at B -> fields M !! field = fields B !! field) /\
     (scraped_at B < scraped_at A -> fields M !! field = fields A !! field)).
Proof.
  intros HA HB _ M.
  assert (Hpresent : forall field, has_field (fields M) field =
     has_field (fields A) field || has_field (fields B) field).
  { intros field. unfold has_field. subst M. simpl.
    by rewrite lookup_merged, merge_value_present. }
  assert (HscoreA : completeness_score A <= completeness_score M).
  { rewrite (scored_score A HA). subst M. simpl. apply score_mono.
    intros field Hf. fold (fields (merge_duplicates A B)).
    rewrite Hpresent, Hf. done. }
  assert (HscoreB : completeness_score B <= completeness_score M).
  { rewrite (scored_score B HB). subst M. simpl. apply score_mono.
    intros field Hf. fold (fields (merge_duplicates A B)).
    rewrite Hpresent, Hf. apply orb_true_r. }
  split; [|split; [done|split; [done|split; [lia|split; [done|]]]]].
  { subst M. unfold scored. simpl. by destruct (score _). }
  split; [|split; [|split]].
  - intros field. subst M. simpl. rewrite lookup_merged. apply merge_value_choice.
  - intros field HfB HfA. subst M. simpl. rewrite lookup_merged.
    unfold has_field in HfA, HfB. unfold merge_value. by rewrite HfA, HfB.
  - intros field HfA HfB. subst M. simpl. rewrite lookup_merged.
    unfold has_field in HfA, HfB. unfold merge_value. by rewrite HfA, HfB.
  - intros field HfA HfB. subst M. simpl. rewrite lookup_merged.
    unfold has_field in HfA, HfB. unfold merge_value. rewrite HfA, HfB.
    split; intros Hlt.
    + by rewrite (proj2 (Z.ltb_lt _ _) Hlt).
    + by rewrite (proj2 (Z.ltb_ge _ _)) by lia.
Qed.

(** The conference, scored 40 by one source and 80 by the other. *)
Lemma merge_conference :
  completeness_score conference_a = 40 /\
  completeness_score conference_b = 80 /\
  fingerprint title_length conference_a = fingerprint title_length conference_b /\
  80 <= completeness_score (merge_duplicates conference_a conference_b) /\
  fields (merge_duplicates conference_a conference_b) !! "description" =
    Some (Text "Three days of papers and panels.").
Proof.
  assert (Ha : scored conference_a) by reflexivity.
  assert (Hb : scored conference_b) by reflexivity.
  assert (Hf : fingerprint title_length conference_a =
               fingerprint title_length conference_b) by reflexivity.
  destruct (merge_duplicates_monotone title_length conference_a conference_b Ha Hb Hf)
    as (_ & _ & _ & H80 & _ & _ & HB & _).
  split; [reflexivity|]. split; [reflexivity|]. split; [exact Hf|].
  split; [apply H80; reflexivity|].
  rewrite (HB "description"); reflexivity.
Defined.

End MergeFacts.

(** ** The filtered events of the [App] component *)

Section AppFacts.
Import Js App Examples.

Lemma insert_sorted_perm {A} (compare : A -> A -> Z) (x : A) (l : list A) :
  Permutation (insert_sorted compare x l) (x :: l).
Proof.
  induction l as [|y l IH]; simpl; [done|].
  destruct (compare x y <=? 0); [done|].
  rewrite IH. apply perm_swap.
Qed.

(** Sorting keeps the events and their number. *)
Lemma sort_perm {A} (compare : A -> A -> Z) (l : list A) :
  Permutation (sort compare l) l.
Proof.
  induction l as [|x l IH]; simpl; [done|].
  rewrite insert_sorted_perm. by constructor.
Qed.

Lemma truthy_missing (p : prop) :
  p = Undefined \/ p = Null \/ p = Str EmptyString -> truthy p = false.
Proof. by intros [-> | [-> | ->]]. Qed.

Context `{Env}.

Lemma on_or_after_truthy (start : option Z) (e : event) :
  on_or_after start e = true -> truthy (start_date e) = true.
Proof. unfold on_or_after. by intros [? _]%andb_true_iff. Qed.

Lemma on_or_before_truthy (end_ : option Z) (e : event) :
  on_or_before end_ e = true -> truthy (start_date e) = true.
Proof. unfold on_or_before. by intros [? _]%andb_true_iff. Qed.

(** What is left after the date range had its say, before the sort. *)
Lemma filtered_in (events : list event) (filters : Filters.t) (sortBy : string)
    (e : event) :
  In e (filteredEvents events filters sortBy) ->
  In e events /\
  (Filters.startDate filters ≠ EmptyString ->
     on_or_after (Date_time (Filters.startDate filters)) e = true) /\
  (Filters.endDate filters ≠ EmptyString ->
     on_or_before (Date_time (Filters.endDate filters)) e = true).
Proof.
  unfold filteredEvents. intros Hin.
  apply (Permutation_in _ (sort_perm _ _)) in Hin.
  repeat match type of Hin with
  | In _ (if ?c then _ else _) => destruct c eqn:?
  | In _ (List.filter _ _) => apply filter_In in Hin as [Hin ?]
  end;
  repeat match goal with
  | Hc : bool_decide _ = true |- _ => apply bool_decide_eq_true in Hc
  | Hc : bool_decide _ = false |- _ => apply bool_decide_eq_false in Hc
  end;
  split; try done; split; intros Hfilter; try done; by destruct Hfilter.
Qed.

(** C9. Whenever the start or the end of the date range is set, an event
    whose [start_date] is undefined, null or the empty string is not among
    the filtered events, whatever the other filters and the sort order. *)
Theorem filtered_events_are_dated (events : list event) (filters : Filters.t)
    (sortBy : string) (e : event) :
  Filters.startDate filters ≠ EmptyString \/ Filters.endDate filters ≠ EmptyString ->
  start_date e = Undefined \/ start_date e = Null \/ start_date e = Str EmptyString ->
  ~ In e (filteredEvents events filters sortBy).
Proof.
  intros Hrange Hmissing Hin.
  apply truthy_missing in Hmissing.
  apply filtered_in in Hin as (_ & Hstart & Hend).
  destruct Hrange as [Hset | Hset].
  - apply Hstart, on_or_after_truthy in Hset. congruence.
  - apply Hend, on_or_before_truthy in Hset. congruence.
Qed.

End AppFacts.

Section AppExamples.
Import Js App Examples.

(** From the first of March on, the undated reading group is gone and the
    seminar of the tenth stays. *)
Lemma undated_event_is_filtered_out :
  Filters.startDate from_march ≠ EmptyString /\
  start_date undated = Null /\
  @filteredEvents UtcBrowser.browser [undated; dated] from_march "date" = [dated] /\
  ~ In undated (@filteredEvents UtcBrowser.browser [undated; dated] from_march "date").
Proof.
  assert (Hset : Filters.startDate from_march ≠ EmptyString) by done.
  split; [exact Hset|]. split; [reflexivity|]. split; [reflexivity|].
  apply (@filtered_events_are_dated UtcBrowser.browser); [by left | by right; left].
Defined.

End AppExamples.

(** ** The [useEvents] hook *)

Section UseEventsFacts.
Import UseEvents.
Variable null_read : string -> string.

Lemma fetch_events_loading (o : outcome) (s : state) :
  loading (fetchEvents null_read o s) = false.
Proof. reflexivity. Qed.

(** The events the hook ends with. *)
Lemma fetch_events_events (o : outcome) (s : state) :
  events (fetchEvents null_read o s) = final_events o.
Proof.
  unfold fetchEvents, try_block, final_events, payload.
  destruct o as [m | status [m | data]]; try done;
    destruct (ok status); cbn [negb]; try done.
  destruct data as [| | | | |members]; try done.
  unfold events_member. cbn [isArray member member_opt].
  destruct (snd <$> List.find _ members) as [v|]; [|done].
  destruct (truthy (Some v)); [|done].
  by destruct (truthy _).
Qed.

(** The error the hook ends with. *)
Lemma fetch_events_error (o : outcome) (s : state) :
  error (fetchEvents null_read o s) = final_error null_read o.
Proof.
  unfold fetchEvents, try_block, final_error, failure_message, payload.
  destruct o as [m | status [m | data]]; try done;
    destruct (ok status); cbn [negb]; try done.
  destruct data as [| | | | |members]; try done.
  cbn [isArray member member_opt].
  destruct (snd <$> List.find _ members) as [v|]; [|done].
  destruct (truthy (Some v)); [|done].
  by destruct (truthy _).
Qed.

Lemma failure_no_payload (o : outcome) (message : string) :
  failure_message o = Some message -> payload o = None.
Proof.
  unfold failure_message, payload.
  destruct o as [m | status [m | data]]; try done. by destruct (ok status).
Qed.

Lemma payload_no_failure (o : outcome) (data : json) :
  payload o = Some data -> failure_message o = None.
Proof.
  destruct (failure_message o) as [message|] eqn:Hfail; [|done].
  by rewrite (failure_no_payload o message Hfail).
Qed.

(** C10, as the code has it.  Whatever the outcome of the fetch, the hook
    ends with [loading] false and with events that the outcome alone
    decides, never the earlier ones.  On a network error, a status that is
    not OK or a body that is not JSON, the events are the empty array and
    the error is the message of the failure.  A payload that is an array
    becomes the events; so does the truthy [events] member of a payload,
    array or not; a payload with no truthy [events] member gives the empty
    array, with no error unless the payload is [null], where the error is
    the message of the TypeError. *)
Theorem fetch_events_outcomes (o : outcome) (s : state) :
  let s' := fetchEvents null_read o s in
  loading s' = false /\
  events s' = events (fetchEvents null_read o initial) /\
  (forall message, failure_message o = Some message ->
     events s' = JArr [] /\ error s' = Some message) /\
  (forall data, payload o = Some data ->
     (isArray data = true -> events s' = data /\ error s' = None) /\
     (isArray data = false ->
        forall v, events_member data = Some v -> truthy (Some v) = true ->
          events s' = v /\ error s' = None) /\
     (isArray data = false -> truthy (events_member data) = false ->
        events s' = JArr [] /\
        error s' = if data is JNull then Some (null_read "events") else None)) /\
  (isArray (events s') = true \/
   exists data v, payload o = Some data /\ isArray data = false /\
     events_member data = Some v /\ truthy (Some v) = true /\
     isArray v = false /\ events s' = v).
Proof.
  intros s'. subst s'.
  rewrite !fetch_events_events, fetch_events_error, fetch_events_loading.
  split; [done|]. split; [done|]. split; [|split].
  - intros message Hfail. unfold final_events, final_error.
    by rewrite Hfail, (failure_no_payload o message Hfail).
  - intros data Hdata. unfold final_events, final_error.
    rewrite Hdata, (payload_no_failure o data Hdata). split; [|split].
    + intros Harr. rewrite Harr. by destruct data.
    + intros Harr v Hv Htruthy. rewrite Harr, Hv, Htruthy. by destruct data.
    + intros Harr Hfalsy. rewrite Harr. split; [|by destruct data].
      destruct (events_member data) as [v|]; [|done]. by rewrite Hfalsy.
  - unfold final_events. destruct (payload o) as [data|]; [|by left].
    destruct (isArray data) eqn:Harr; [by left|].
    destruct (events_member data) as [v|] eqn:Hv; [|by left].
    destruct (truthy (Some v)) eqn:Htruthy; [|by left].
    destruct (isArray v) eqn:Hvarr; [by left|].
    right. by exists data, v.
Qed.

End UseEventsFacts.

Section UseEventsExamples.
Import UseEvents.

(** C10 as stated fails twice.  The payload [{"events": "none"}] leaves the
    string "none" as the events, which is no array; the payload [null] has
    no [events] key and yet leaves an error. *)
Lemma events_can_be_no_array :
  events (fetchEvents v8_null_read
            (Response 200 (Parsed (JObj [("events", JStr "none")]))) initial)
    = JStr "none" /\
  isArray (JStr "none") = false /\
  events (fetchEvents v8_null_read (Response 200 (Parsed JNull)) initial) = JArr [] /\
  error (fetchEvents v8_null_read (Response 200 (Parsed JNull)) initial)
    = Some "Cannot read properties of null (reading 'events')".
Proof. repeat split; reflexivity. Qed.

(** A status 404 leaves no events and the message of the failure. *)
Lemma fetch_events_not_found :
  failure_message (Response 404 (Parsed (JArr [JNum 1]))) =
    Some "Failed to fetch events: 404" /\
  events (fetchEvents v8_null_read (Response 404 (Parsed (JArr [JNum 1])))
            (mk_state (JArr [JNum 7]) true None None)) = JArr [] /\
  error (fetchEvents v8_null_read (Response 404 (Parsed (JArr [JNum 1])))
           (mk_state (JArr [JNum 7]) true None None)) =
    Some "Failed to fetch events: 404".
Proof.
  split; [reflexivity|].
  apply (proj1 (proj2 (proj2 (fetch_events_outcomes v8_null_read
    (Response 404 (Parsed (JArr [JNum 1])))
    (mk_state (JArr [JNum 7]) true None None))))).
  reflexivity.
Defined.

End UseEventsExamples.

(* ===================================================================== *)
(** * Part III. Further properties of the code                           *)
(* ===================================================================== *)

(** ** What a pattern search returns *)

Section PatternFacts.
Import Py Patterns.







Lemma startswith_contains (m s : string) : startswith m s = true -> contains m s = true.
Proof. destruct s; simpl; by intros ->. Qed.





End PatternFacts.

(** ** Description and registration *)

Section DescriptionFacts.
Import Py Soup EventParser MoreExamples.



(** The two parts of [_extract_registration]: the link, then the fee. *)
Lemma extract_registration_parts (e : node) :
  exists links : gmap string string,
    _extract_registration e =
      Ok match first_some (fun pattern => Re.search_ignorecase pattern (get_text e))
                 fee_patterns with
         | Some fee => <["fee" := fee]> links
         | None => links
         end /\
    match select_one e registration_selector with
    | Some link => exists href, get_attr link "href" = Some href /\
        (contains "register" href = true \/ contains "registration" href = true) /\
        links = {[ "url" := href ]}
    | None => links = ∅
    end.
Proof.
  unfold _extract_registration.
  destruct (select_one e registration_selector) as [link|] eqn:Hlink.
  - destruct (select_one_href _ _ _ _ Hlink) as (href & Hhref & Htoken).
    exists {[ "url" := href ]}. rewrite (get_item_ok _ _ _ Hhref).
    split.
    + unfold mbind, result_bind, bind.
      by match goal with |- context [first_some ?f ?l] => destruct (first_some f l) end.
    + by exists href.
  - exists ∅. split; [|done]. unfold mbind, result_bind, bind.
    by match goal with |- context [first_some ?f ?l] => destruct (first_some f l) end.
Qed.

(** Registration extraction returns a dictionary.  Its [url] is the target
    of the first link whose target contains "register" or "registration",
    and is set as soon as the fragment has such a link and only then. *)
Theorem extract_registration_url (e : node) :
  exists registration, _extract_registration e = Ok registration /\
    (forall link, select_one e registration_selector = Some link ->
       exists href, get_attr link "href" = Some href /\
         (contains "register" href = true \/ contains "registration" href = true) /\
         registration !! "url" = Some href) /\
    (select_one e registration_selector = None -> registration !! "url" = None) /\
    (forall n target, In n (descendants e) -> has_tag "a" n = true ->
       get_attr n "href" = Some target ->
       contains "register" target = true \/ contains "registration" target = true ->
       is_Some (registration !! "url")).
Proof.
  destruct (extract_registration_parts e) as (links & -> & Hlinks).
  eexists. split; [reflexivity|].
  assert (Hurl : forall fee : option string,
    match fee with Some fee => <["fee" := fee]> links | None => links end !! "url"
      = links !! "url").
  { intros [fee|]; [by rewrite lookup_insert_ne|done]. }
  rewrite Hurl. split; [|split].
  - intros link Hlink. rewrite Hlink in Hlinks.
    destruct Hlinks as (href & Hhref & Hreg & ->). exists href.
    by rewrite lookup_singleton_eq.
  - intros Hnone. rewrite Hnone in Hlinks. by rewrite Hlinks.
  - intros n target Hin Htag Hhref Hreg.
    assert (Hsome : is_Some (select_one e registration_selector)).
    { apply (select_one_some e n); [done|].
      unfold matches, registration_selector. simpl. rewrite Htag, Hhref. simpl.
      destruct Hreg as [-> | ->]; [done | apply orb_true_r]. }
    destruct Hsome as [link Hlink]. rewrite Hlink in Hlinks.
    destruct Hlinks as (href & _ & _ & ->). by rewrite lookup_singleton_eq.
Qed.




End DescriptionFacts.

(** ** The shape of titles and locations *)

Section ShapeFacts.
Import Py Soup EventParser Examples.

Lemma rstrip_head (s r : string) (c : ascii) :
  rstrip s = String c r -> exists r', s = String c r'.
Proof.
  destruct s as [|d s]; simpl; [done|].
  destruct (rstrip s); [destruct (isspace d)|]; intros [= <- _]; by eexists.
Qed.

Lemma strip_head (s r : string) (c : ascii) :
  strip s = String c r -> isspace c = false.
Proof.
  unfold strip. intros Hs. apply rstrip_head in Hs as [r' Hs].
  by apply (lstrip_head s r' c).
Qed.

Lemma slice_to_head (n : nat) (s r : string) (c : ascii) :
  slice_to n s = String c r -> exists r', s = String c r'.
Proof. destruct n, s; simpl; try done. intros [= <- _]. by eexists. Qed.

Lemma stripped_strings_head (e : node) (r : string) (c : ascii) :
  get_text_strip e = String c r -> isspace c = false.
Proof.
  unfold get_text_strip, stripped_strings.
  induction (strings e) as [|s l IH]; simpl; [done|].
  rewrite filter_cons. destruct (decide (strip s ≠ EmptyString)) as [Hs|Hs]; [|exact IH].
  simpl. destruct (strip s) as [|d t] eqn:Hstrip; [done|].
  simpl. intros [= <- _]. by apply (strip_head s t d).
Qed.

(** A title never begins with white space, whichever way it was found. *)
Theorem extract_title_no_leading_space (e : node) (c : ascii) (rest : string) :
  _extract_title e = String c rest -> isspace c = false.
Proof.
  unfold _extract_title.
  destruct (first_some (title_by e) title_selectors) as [t|] eqn:Hfirst.
  - intros ->. apply first_some_Some in Hfirst as (sel & _ & Hby).
    unfold title_by in Hby. destruct (select_one e sel) as [n|]; [|done].
    case_bool_decide; [|done]. injection Hby as Hby. by apply (strip_head _ _ _ Hby).
  - intros Hslice. apply slice_to_head in Hslice as [r' Htext].
    by apply (stripped_strings_head e r' c).
Qed.

Lemma extract_title_museum :
  _extract_title museum = "join" /\ isspace "j" = false.
Proof.
  split; [reflexivity|].
  exact (extract_title_no_leading_space museum "j" "oin" eq_refl).
Defined.

(** The dictionary that [_extract_location] returns, written out. *)
Lemma extract_location_value (e : node) :
  exists venue online : gmap string string,
    _extract_location e = Ok (online ∪ venue) /\
    venue =
      match select_one e location_selector with
      | Some loc_elem =>
          let text := get_text_strip loc_elem in
          if (2 <=? length (split "," text))%nat
          then {[ "venue" := text;
                  "city" := strip (first_item (split "," text));
                  "country" := strip (last_item (split "," text)) ]}
          else {[ "venue" := text ]}
      | None => ∅
      end /\
    match select_one e zoom_selector with
    | Some link => exists href, online = {[ "online_url" := href ]}
    | None => online = ∅
    end.
Proof.
  unfold _extract_location.
  set (venue := match select_one e location_selector with
                | Some loc_elem => _
                | None => _
                end).
  assert (Hvenue : venue =
      match select_one e location_selector with
      | Some loc_elem =>
          let text := get_text_strip loc_elem in
          if (2 <=? length (split "," text))%nat
          then {[ "venue" := text;
                  "city" := strip (first_item (split "," text));
                  "country" := strip (last_item (split "," text)) ]}
          else {[ "venue" := text ]}
      | None => ∅
      end).
  { subst venue. destruct (select_one e location_selector) as [loc|]; [|done].
    cbv zeta. rewrite length_map, first_item_strip, last_item_strip.
    destruct (2 <=? _)%nat; [|done].
    apply map_eq. intros key.
    destruct (decide (key = "venue")) as [->|Hv]; [by simplify_map_eq|].
    destruct (decide (key = "city")) as [->|Hc]; [by simplify_map_eq|].
    destruct (decide (key = "country")) as [->|Hk]; by simplify_map_eq. }
  clearbody venue.
  destruct (select_one e zoom_selector) as [link|] eqn:Hlink.
  - destruct (select_one_href _ _ _ _ Hlink) as (href & Hhref & _).
    rewrite (get_item_ok _ _ _ Hhref). exists venue, {[ "online_url" := href ]}.
    split; [|split; [done | by exists href]].
    simpl. f_equal. by rewrite insert_union_singleton_l.
  - exists venue, ∅. split; [|done]. by rewrite (left_id_L ∅ (∪)).
Qed.

(** The keys of a location.  The city and the country are set together,
    and only along with a venue whose text has a comma; the venue is set
    exactly when the fragment has a location-labeled element; there is no
    key but [venue], [city], [country] and [online_url]. *)
Theorem extract_location_keys (e : node) :
  exists location, _extract_location e = Ok location /\
    (is_Some (location !! "city") <-> is_Some (location !! "country")) /\
    (is_Some (location !! "city") <->
     exists loc_elem, select_one e location_selector = Some loc_elem /\
       contains "," (get_text_strip loc_elem) = true) /\
    (is_Some (location !! "venue") <-> is_Some (select_one e location_selector)) /\
    (forall key, is_Some (location !! key) ->
       key = "venue" \/ key = "city" \/ key = "country" \/ key = "online_url").
Proof.
  destruct (extract_location_value e) as (venue & online & Hloc & Hvenue & Honline).
  exists (online ∪ venue). split; [exact Hloc|].
  assert (Hlookup : forall key, key ≠ "online_url" ->
            (online ∪ venue) !! key = venue !! key).
  { intros key Hkey. rewrite lookup_union_r; [done|].
    destruct (select_one e zoom_selector).
    - destruct Honline as [href ->]. by rewrite lookup_singleton_ne.
    - by rewrite Honline. }
  assert (Honly : forall key, is_Some (online !! key) -> key = "online_url").
  { intros key [v Hv]. destruct (select_one e zoom_selector).
    - destruct Honline as [href ->]. by apply lookup_singleton_Some in Hv as [<- _].
    - by rewrite Honline in Hv. }
  rewrite !Hlookup by done.
  assert (Hkeys : forall key, is_Some ((online ∪ venue) !! key) ->
            is_Some (venue !! key) \/ key = "online_url").
  { intros key [v Hv]. apply lookup_union_Some_raw in Hv as [Hv | [_ Hv]].
    - right. apply Honly. by exists v.
    - left. by exists v. }
  destruct (select_one e location_selector) as [loc|] eqn:Hsel.
  - cbv zeta in Hvenue.
    destruct (2 <=? length (split "," (get_text_strip loc)))%nat eqn:Hlen; subst venue.
    + apply Nat.leb_le in Hlen.
      set (text := get_text_strip loc) in *.
      assert (Hv : ({[ "venue" := text;
                       "city" := strip (first_item (split "," text));
                       "country" := strip (last_item (split "," text)) ]}
                    : gmap string string) !! "venue" = Some text)
        by by simplify_map_eq.
      assert (Hc : ({[ "venue" := text;
                       "city" := strip (first_item (split "," text));
                       "country" := strip (last_item (split "," text)) ]}
                    : gmap string string) !! "city"
                   = Some (strip (first_item (split "," text))))
        by by simplify_map_eq.
      assert (Hk : ({[ "venue" := text;
                       "city" := strip (first_item (split "," text));
                       "country" := strip (last_item (split "," text)) ]}
                    : gmap string string) !! "country"
                   = Some (strip (last_item (split "," text))))
        by by simplify_map_eq.
      rewrite Hv, Hc, Hk.
      split; [done|]. split; [|split; [done|]].
      * split; [|by eexists]. intros _. exists loc. split; [done|].
        by apply split_two_segments.
      * intros key Hkey. destruct (Hkeys key Hkey) as [[v Hv'] | ->]; [|tauto].
        destruct (decide (key = "venue")) as [|Hne1]; [tauto|].
        destruct (decide (key = "city")) as [|Hne2]; [tauto|].
        destruct (decide (key = "country")) as [|Hne3]; [tauto|].
        rewrite ?lookup_insert_ne, ?lookup_singleton_ne, ?lookup_empty in Hv' by done.
        done.
    + apply Nat.leb_gt in Hlen.
      rewrite lookup_singleton_eq, !lookup_singleton_ne by done.
      split; [done|]. split; [|split; [done|]].
      * split; [by intros [? ?]|]. intros (loc' & [= <-] & Hcomma).
        apply split_two_segments in Hcomma. lia.
      * intros key Hkey. destruct (Hkeys key Hkey) as [[v Hv] | ->]; [|tauto].
        apply lookup_singleton_Some in Hv as [<- _]. tauto.
  - subst venue. rewrite !lookup_empty.
    split; [done|]. split; [|split].
    + split; [by intros [? ?] | by intros (? & ? & _)].
    + split; by intros [? ?].
    + intros key Hkey. destruct (Hkeys key Hkey) as [[v Hv] | ->]; [done|tauto].
Qed.

End ShapeFacts.

(** ** The newsletter parser *)

Section NewsletterFacts.
Import Py Soup EventParser NewsletterParser Patterns MoreExamples.









(** A day and a month that the pattern no longer names. *)
Lemma contains_date_december : _contains_date "Monday, December" = false.
Proof. reflexivity. Qed.

Context `{DateUtil} `{EventClass}.




End NewsletterFacts.

(** ** The orchestrator *)

Section OrchestratorFacts.
Import Py ScraperOrchestrator Summary MoreExamples.
Context {event : Type}.
Variable scrape_source : gmap string string -> result (list event).
Variable str : exn -> string.

(** The loop, from any summary on, when every failing source has a name. *)
Lemma visit_all_named (sources : list (gmap string string)) :
  failures_named scrape_source sources ->
  forall results,
    visit_all scrape_source str results sources =
      Ok (mk_results (total_sources results)
            (successful results
             + Z.of_nat (length (List.filter (succeeds scrape_source) sources)))
            (failed results
             + Z.of_nat (length (flat_map (error_of scrape_source str) sources)))
            (new_events results
             + Z.of_nat (length (flat_map (events_of scrape_source) sources)))
            (errors results ++ flat_map (error_of scrape_source str) sources)).
Proof.
  induction sources as [|source rest IH]; intros Hnamed results; simpl.
  - rewrite !Z.add_0_r, app_nil_r. by destruct results.
  - assert (Hrest : failures_named scrape_source rest).
    { intros s Hs. apply Hnamed. by right. }
    pose proof (Hnamed source (or_introl eq_refl)) as Hname.
    unfold visit, succeeds, error_of, events_of in *.
    destruct (scrape_source source) as [events|e]; simpl.
    + rewrite (IH Hrest). simpl. f_equal.
      f_equal; rewrite ?length_app; try done; lia.
    + destruct Hname as [name Hname]; [by eexists|].
      unfold getitem. rewrite Hname. simpl. rewrite (IH Hrest). simpl.
      f_equal. f_equal; rewrite <- ?app_assoc; try done; lia.
Qed.

Lemma error_of_length (sources : list (gmap string string)) :
  (length (flat_map (error_of scrape_source str) sources)
   + length (List.filter (succeeds scrape_source) sources)
   = length sources)%nat.
Proof.
  induction sources as [|source rest IH]; simpl; [done|].
  unfold error_of, succeeds in *.
  destruct (scrape_source source); simpl; lia.
Qed.

(** When every source that fails has a name, a run returns a summary in
    which [successful] and [failed] add up to the number of sources and
    [errors] has one entry per failed source; [total_sources] is 0 whatever
    the sources, as nothing ever counts them. *)
Theorem run_all_scrapers_counts (sources : list (gmap string string)) :
  failures_named scrape_source sources ->
  exists results notified,
    run_all_scrapers scrape_source str sources = Ok (results, notified) /\
    successful results + failed results = Z.of_nat (length sources) /\
    Z.of_nat (length (errors results)) = failed results /\
    0 <= successful results /\ 0 <= failed results /\
    total_sources results = 0.
Proof.
  intros Hnamed. unfold run_all_scrapers.
  rewrite (visit_all_named sources Hnamed). simpl.
  eexists _, _. split; [reflexivity|]. simpl.
  pose proof (error_of_length sources). lia.
Qed.

(** Such a run counts as new events the events of the sources that were
    scraped, lists the failed sources by name with their error, in the
    order of the sources, and notifies the administrator exactly when some
    source failed. *)
Theorem run_all_scrapers_summary (sources : list (gmap string string)) :
  failures_named scrape_source sources ->
  exists results notified,
    run_all_scrapers scrape_source str sources = Ok (results, notified) /\
    successful results =
      Z.of_nat (length (List.filter (succeeds scrape_source) sources)) /\
    new_events results =
      Z.of_nat (length (flat_map (events_of scrape_source) sources)) /\
    errors results = flat_map (error_of scrape_source str) sources /\
    (notified = true <->
     exists source, In source sources /\ raises (scrape_source source)).
Proof.
  intros Hnamed. unfold run_all_scrapers.
  rewrite (visit_all_named sources Hnamed). simpl.
  eexists _, _. split; [reflexivity|]. simpl.
  split; [done|]. split; [done|]. split; [done|].
  rewrite Z.ltb_lt. split.
  - intros Hpos.
    destruct (flat_map (error_of scrape_source str) sources) as [|entry l] eqn:Herr;
      [simpl in Hpos; lia|].
    assert (Hin : In entry (flat_map (error_of scrape_source str) sources))
      by (rewrite Herr; by left).
    apply in_flat_map in Hin as (source & Hsource & Hentry).
    exists source. split; [done|]. unfold error_of in Hentry.
    destruct (scrape_source source) as [|e]; [done|]. by exists e.
  - intros (source & Hsource & [e He]).
    assert (Hin : In (mk_error (default EmptyString (source !! "name")) (str e))
                     (flat_map (error_of scrape_source str) sources)).
    { apply in_flat_map. exists source. split; [done|].
      unfold error_of. rewrite He. by left. }
    destruct (flat_map (error_of scrape_source str) sources); [done|]. simpl. lia.
Qed.

(** A run raises exactly when scraping fails at a source that has no name:
    the handler of the failure then fails with a KeyError itself, and the
    summary is lost. *)
Theorem run_all_scrapers_raises (sources : list (gmap string string)) :
  raises (run_all_scrapers scrape_source str sources) <->
  exists source, In source sources /\ raises (scrape_source source) /\
    source !! "name" = None.
Proof.
  unfold run_all_scrapers.
  assert (Hloop : forall results,
    raises (visit_all scrape_source str results sources) <->
    exists source, In source sources /\ raises (scrape_source source) /\
      source !! "name" = None).
  { induction sources as [|source rest IH]; intros results; simpl.
    - split; [by intros [? ?] | by intros (? & [] & _)].
    - unfold visit. destruct (scrape_source source) as [events|e] eqn:Hscrape; simpl.
      + rewrite IH. split.
        * intros (s & Hs & Hfail & Hname). exists s. auto.
        * intros (s & [<- | Hs] & [x Hfail] & Hname); [congruence|].
          exists s. split; [done|]. split; [by exists x | done].
      + unfold getitem. destruct (source !! "name") as [name|] eqn:Hname; simpl.
        * rewrite IH. split.
          -- intros (s & Hs & Hfail & Hnone). exists s. auto.
          -- intros (s & [<- | Hs] & Hfail & Hnone); [congruence|].
             by exists s.
        * split; [|by eexists]. intros _. exists source.
          split; [by left|]. split; [|done]. rewrite Hscrape. by eexists. }
  rewrite <- (Hloop (mk_results 0 0 0 0 [])).
  destruct (visit_all scrape_source str (mk_results 0 0 0 0 []) sources); simpl.
  - split; by intros [? ?].
  - split; intros _; by eexists.
Qed.

End OrchestratorFacts.

Section OrchestratorExamples.
Import Py ScraperOrchestrator Summary MoreExamples.

Lemma apsa_and_bpc_named : failures_named scrape_apsa_only [apsa; bpc; bpc].
Proof.
  intros source Hin _. simpl in Hin.
  destruct Hin as [<- | [<- | [<- | []]]]; by eexists.
Qed.

(** One source scraped, two timed out. *)
Lemma run_all_scrapers_counts_example :
  failures_named scrape_apsa_only [apsa; bpc; bpc] /\
  exists results notified,
    run_all_scrapers scrape_apsa_only exception_name [apsa; bpc; bpc]
      = Ok (results, notified) /\
    successful results = 1 /\ failed results = 2 /\ total_sources results = 0.
Proof.
  split; [exact apsa_and_bpc_named|].
  destruct (run_all_scrapers_counts scrape_apsa_only exception_name [apsa; bpc; bpc]
              apsa_and_bpc_named) as (results & notified & Hrun & _ & _ & _ & _ & Htotal).
  exists results, notified. split; [exact Hrun|].
  vm_compute in Hrun. injection Hrun as <- <-. auto.
Defined.

Lemma run_all_scrapers_summary_example :
  failures_named scrape_apsa_only [apsa; bpc; bpc] /\
  exists results,
    run_all_scrapers scrape_apsa_only exception_name [apsa; bpc; bpc]
      = Ok (results, true) /\
    new_events results = 3 /\
    errors results = [mk_error "BPC" "Timeout"; mk_error "BPC" "Timeout"].
Proof.
  split; [exact apsa_and_bpc_named|].
  destruct (run_all_scrapers_summary scrape_apsa_only exception_name [apsa; bpc; bpc]
              apsa_and_bpc_named) as (results & notified & Hrun & _ & Hnew & Herr & _).
  exists results. vm_compute in Hrun. injection Hrun as <- <-. auto.
Defined.

End OrchestratorExamples.

(** ** The resilient scraper *)

Section RetryFacts.
Import Py ResilientScraper Backoff.
Variable get : nat -> response.
Variable max_retries : Z.

Lemma pauses_from_succ (first k : nat) :
  pauses_from first (S k) = pauses_from first k ++ [2 ^ Z.of_nat (first + k)].
Proof. unfold pauses_from. by rewrite seq_S, map_app. Qed.

Lemma pauses_from_cons (first k : nat) :
  pauses_from first (S k) = 2 ^ Z.of_nat first :: pauses_from (S first) k.
Proof. reflexivity. Qed.

Lemma total_app (l1 l2 : list Z) : total (l1 ++ l2) = total l1 + total l2.
Proof. induction l1 as [|x l1 IH]; simpl; [done|]. rewrite IH. lia. Qed.

(** After [k] failed requests the pauses add up to [2 ^ k - 1] seconds. *)
Lemma total_pauses (k : nat) : total (pauses k) = 2 ^ Z.of_nat k - 1.
Proof.
  unfold pauses. induction k as [|k IH]; [done|].
  rewrite pauses_from_succ, total_app, IH. simpl.
  rewrite Nat2Z.inj_succ, Z.pow_succ_r by lia. lia.
Qed.

(** While the requests fail for a passing reason and the last round is not
    reached, the loop pauses and goes on. *)
Lemma attempts_transient (k : nat) :
  forall attempt remaining sleeps,
  (forall j, (attempt <= j < attempt + k)%nat -> exists e, get j = Transient e) ->
  (k <= remaining)%nat ->
  Z.of_nat (attempt + k) <= max_retries - 1 ->
  attempts get max_retries attempt remaining sleeps =
    attempts get max_retries (attempt + k) (remaining - k)
      (sleeps ++ pauses_from attempt k).
Proof.
  induction k as [|k IH]; intros attempt remaining sleeps Hfail Hk Hlast.
  - rewrite Nat.add_0_r, Nat.sub_0_r. unfold pauses_from. simpl. by rewrite app_nil_r.
  - destruct remaining as [|remaining]; [lia|]. simpl.
    destruct (Hfail attempt ltac:(lia)) as [e ->].
    rewrite (proj2 (Z.eqb_neq _ _)) by lia.
    rewrite (IH (S attempt) remaining); [|intros j Hj; apply Hfail; lia|lia|lia].
    rewrite pauses_from_cons, <- app_assoc. simpl.
    by replace (S (attempt + k))%nat with (attempt + S k)%nat by lia.
Qed.

(** When every request fails for a passing reason, the scraper gives up
    after [max_retries] requests: it raises the error of the last one,
    having paused 1, 2, 4, ... seconds between them,
    [2 ^ (max_retries - 1) - 1] seconds in all. *)
Theorem scrape_with_retry_gives_up :
  0 < max_retries ->
  (forall j, Z.of_nat j < max_retries -> exists e, get j = Transient e) ->
  exists e, get (Z.to_nat (max_retries - 1)) = Transient e /\
    scrape_with_retry get max_retries =
      (Raise e, pauses (Z.to_nat (max_retries - 1))) /\
    total (snd (scrape_with_retry get max_retries)) = 2 ^ (max_retries - 1) - 1.
Proof.
  intros Hpos Hfail. set (last := Z.to_nat (max_retries - 1)).
  destruct (Hfail last ltac:(lia)) as [e He]. exists e. split; [exact He|].
  assert (Hrun : scrape_with_retry get max_retries = (Raise e, pauses last)).
  { unfold scrape_with_retry.
    rewrite (attempts_transient last 0 (Z.to_nat max_retries) []);
      [|intros j Hj; apply Hfail; lia|lia|lia].
    replace (Z.to_nat max_retries - last)%nat with 1%nat by lia. simpl.
    rewrite He. by rewrite (proj2 (Z.eqb_eq _ _)) by lia. }
  split; [exact Hrun|]. rewrite Hrun. simpl. rewrite total_pauses.
  by replace (Z.of_nat last) with (max_retries - 1) by lia.
Qed.

(** The first request that does not fail for a passing reason decides: its
    text is returned, or its error is raised at once, without another try
    (so an HTTP error status is never retried).  Before it, after [k]
    failed requests, the scraper has paused 1, 2, ..., [2 ^ (k - 1)]
    seconds. *)
Theorem scrape_with_retry_first_answer (k : nat) :
  Z.of_nat k < max_retries ->
  (forall j, (j < k)%nat -> exists e, get j = Transient e) ->
  (forall text, get k = Got text ->
     scrape_with_retry get max_retries = (Ok (Some text), pauses k)) /\
  (forall e, get k = Fatal e ->
     scrape_with_retry get max_retries = (Raise e, pauses k)).
Proof.
  intros Hk Hfail.
  assert (Hrun : scrape_with_retry get max_retries =
    attempts get max_retries k (Z.to_nat max_retries - k) (pauses k)).
  { unfold scrape_with_retry.
    by rewrite (attempts_transient k 0 (Z.to_nat max_retries) []);
      [|intros j Hj; apply Hfail; lia|lia|lia]. }
  rewrite Hrun.
  destruct (Z.to_nat max_retries - k)%nat as [|remaining] eqn:Hrem; [lia|].
  split; intros x Hx; simpl; by rewrite Hx.
Qed.

Lemma attempts_not_none :
  forall remaining attempt sleeps,
  (0 < remaining)%nat -> Z.of_nat attempt + Z.of_nat remaining = max_retries ->
  fst (attempts get max_retries attempt remaining sleeps) ≠ Ok None.
Proof.
  induction remaining as [|remaining IH]; intros attempt sleeps Hpos Hsum; [lia|].
  simpl. destruct (get attempt) as [text|e|e]; try done.
  destruct (Z.of_nat attempt =? max_retries - 1) eqn:Hlast; [done|].
  apply Z.eqb_neq in Hlast. apply IH; lia.
Qed.

(** The scraper returns [None] exactly when [max_retries] is not positive:
    it then makes no request at all.  With a positive [max_retries] it
    returns a text or raises. *)
Theorem scrape_with_retry_none :
  fst (scrape_with_retry get max_retries) = Ok None <-> max_retries <= 0.
Proof.
  unfold scrape_with_retry. split.
  - intros Hnone. destruct (Z.le_gt_cases max_retries 0) as [|Hpos]; [done|].
    exfalso. apply (attempts_not_none (Z.to_nat max_retries) 0 []); [lia..|done].
  - intros Hle. by replace (Z.to_nat max_retries) with 0%nat by lia.
Qed.

Lemma attempts_pauses :
  forall remaining attempt sleeps,
  Z.of_nat attempt + Z.of_nat remaining = max_retries ->
  exists k, snd (attempts get max_retries attempt remaining sleeps)
            = sleeps ++ pauses_from attempt k /\
    (k = 0%nat \/ Z.of_nat (attempt + k) <= max_retries - 1).
Proof.
  induction remaining as [|remaining IH]; intros attempt sleeps Hsum; simpl.
  - exists 0%nat. unfold pauses_from. simpl. rewrite app_nil_r. auto.
  - destruct (get attempt) as [text|e|e];
      try (exists 0%nat; unfold pauses_from; simpl; rewrite app_nil_r; by auto).
    destruct (Z.of_nat attempt =? max_retries - 1) eqn:Hlast.
    + exists 0%nat. unfold pauses_from. simpl. rewrite app_nil_r. auto.
    + apply Z.eqb_neq in Hlast.
      destruct (IH (S attempt) (sleeps ++ [2 ^ Z.of_nat attempt]) ltac:(lia))
        as (k & -> & Hk).
      exists (S k). rewrite pauses_from_cons, <- app_assoc. split; [done|].
      right. destruct Hk as [-> | Hk]; lia.
Qed.

(** Whatever the requests do, the pauses are 1, 2, 4, ... seconds, one
    after each failed request but the last, and add up to less than
    [2 ^ (max_retries - 1)] seconds. *)
Theorem scrape_with_retry_backoff :
  0 < max_retries ->
  exists k, snd (scrape_with_retry get max_retries) = pauses k /\
    Z.of_nat k <= max_retries - 1 /\
    total (snd (scrape_with_retry get max_retries)) = 2 ^ Z.of_nat k - 1 /\
    total (snd (scrape_with_retry get max_retries)) < 2 ^ (max_retries - 1).
Proof.
  intros Hpos. unfold scrape_with_retry.
  destruct (attempts_pauses (Z.to_nat max_retries) 0 [] ltac:(lia)) as (k & Hk & Hbound).
  exists k. simpl in Hk. rewrite Hk. fold (pauses k). rewrite total_pauses.
  assert (Hle : Z.of_nat k <= max_retries - 1) by (destruct Hbound as [-> | ?]; lia).
  split; [done|]. split; [done|]. split; [done|].
  assert (2 ^ Z.of_nat k <= 2 ^ (max_retries - 1)) by (apply Z.pow_le_mono_r; lia).
  lia.
Qed.

End RetryFacts.

Section RetryExamples.
Import Py ResilientScraper Backoff MoreExamples.

(** Four requests that time out: pauses of 1, 2 and 4 seconds, then the
    error. *)
Lemma scrape_with_retry_gives_up_example :
  scrape_with_retry always_timeout 4 = (Raise (OtherError "Timeout"), [1; 2; 4]) /\
  total (snd (scrape_with_retry always_timeout 4)) = 7.
Proof.
  destruct (scrape_with_retry_gives_up always_timeout 4 ltac:(lia)
              ltac:(intros j _; by eexists)) as (e & He & Hrun & Htotal).
  injection He as <-. split; [exact Hrun | exact Htotal].
Defined.

(** The third request answers. *)
Lemma scrape_with_retry_first_answer_example :
  scrape_with_retry third_time_lucky 3 = (Ok (Some "<html></html>"), [1; 2]).
Proof.
  apply (proj1 (scrape_with_retry_first_answer third_time_lucky 3 2 ltac:(lia)
                  ltac:(intros [|[|j]] Hj; [by eexists..|lia]))).
  reflexivity.
Defined.

Lemma scrape_with_retry_backoff_example :
  exists k, snd (scrape_with_retry third_time_lucky 5) = pauses k /\
    total (snd (scrape_with_retry third_time_lucky 5)) < 16.
Proof.
  destruct (scrape_with_retry_backoff third_time_lucky 5 ltac:(lia))
    as (k & Hk & _ & _ & Hlt).
  exists k. split; [exact Hk | exact Hlt].
Defined.

End RetryExamples.

(** ** The filter bar *)

Section FilterBarFacts.
Import Js App FilterBar MoreExamples.

Lemma includes_In (value : string) (l : list string) :
  existsb (String.eqb value) l = true <-> In value l.
Proof.
  rewrite existsb_exists. split.
  - by intros (x & Hx & ->%String.eqb_eq).
  - intros Hin. exists value. by rewrite String.eqb_refl.
Qed.

Lemma In_without (value x : string) (l : list string) :
  In x (List.filter (fun f => negb (String.eqb f value)) l) <-> In x l /\ x ≠ value.
Proof.
  rewrite filter_In, negb_true_iff, String.eqb_neq. tauto.
Qed.

(** The list that a toggle leaves. *)
Lemma toggled_In (value x : string) (l : list string) :
  In x (if existsb (String.eqb value) l
        then List.filter (fun f => negb (String.eqb f value)) l
        else l ++ [value]) <->
  (x = value /\ ~ In value l) \/ (x ≠ value /\ In x l).
Proof.
  destruct (existsb (String.eqb value) l) eqn:Hin.
  - apply includes_In in Hin. rewrite In_without. split; [tauto|].
    intros [[-> Hno] | ?]; tauto.
  - assert (Hno : ~ In value l).
    { intros Hyes. apply includes_In in Hyes. congruence. }
    rewrite in_app_iff. simpl. split.
    + intros [Hx | [<- | []]]; [|tauto].
      right. split; [|done]. by intros ->.
    + intros [[-> _] | [_ Hx]]; tauto.
Qed.

Lemma toggled_NoDup (value : string) (l : list string) :
  List.NoDup l ->
  List.NoDup (if existsb (String.eqb value) l
              then List.filter (fun f => negb (String.eqb f value)) l
              else l ++ [value]).
Proof.
  intros Hl. destruct (existsb (String.eqb value) l) eqn:Hin.
  - by apply List.NoDup_filter.
  - apply List.NoDup_app;
      [done | apply List.NoDup_cons; [by intros [] | apply List.NoDup_nil] |].
    intros x Hx [<- | []]. apply includes_In in Hx. congruence.
Qed.

Lemma toggle_format_In (value x : string) (prev : Filters.t) :
  In x (Filters.format (toggleFormat value prev)) <->
  (x = value /\ ~ In value (Filters.format prev)) \/
  (x ≠ value /\ In x (Filters.format prev)).
Proof. apply toggled_In. Qed.

(** A click on a format or on an event type flips that value in its list
    and nothing else: the other values stay, with the other list and the
    other filters. *)
Theorem toggle_flips (value : string) (prev : Filters.t) :
  (forall x, In x (Filters.format (toggleFormat value prev)) <->
     (x = value /\ ~ In value (Filters.format prev)) \/
     (x ≠ value /\ In x (Filters.format prev))) /\
  (forall x, In x (Filters.eventType (toggleEventType value prev)) <->
     (x = value /\ ~ In value (Filters.eventType prev)) \/
     (x ≠ value /\ In x (Filters.eventType prev))) /\
  toggleFormat value prev =
    Filters.mk (Filters.search prev) (Filters.format (toggleFormat value prev))
      (Filters.eventType prev) (Filters.startDate prev) (Filters.endDate prev)
      (Filters.organization prev) /\
  toggleEventType value prev =
    Filters.mk (Filters.search prev) (Filters.format prev)
      (Filters.eventType (toggleEventType value prev)) (Filters.startDate prev)
      (Filters.endDate prev) (Filters.organization prev).
Proof.
  split; [|split; [|split]]; try done; intros x; apply toggled_In.
Qed.

(** The lists of selected formats and event types never hold a value
    twice: they are empty after [clearFilters], and a click keeps them free
    of duplicates. *)
Theorem toggle_keeps_distinct (value : string) (prev : Filters.t) :
  List.NoDup (Filters.format clearFilters) /\
  List.NoDup (Filters.eventType clearFilters) /\
  (List.NoDup (Filters.format prev) ->
   List.NoDup (Filters.format (toggleFormat value prev)) /\
   List.NoDup (Filters.format (toggleEventType value prev))) /\
  (List.NoDup (Filters.eventType prev) ->
   List.NoDup (Filters.eventType (toggleEventType value prev)) /\
   List.NoDup (Filters.eventType (toggleFormat value prev))).
Proof.
  split; [apply List.NoDup_nil|]. split; [apply List.NoDup_nil|].
  split; intros Hl; (split; [by apply toggled_NoDup | done]).
Qed.

Lemma without_absent (value : string) (l : list string) :
  ~ In value l -> List.filter (fun f => negb (String.eqb f value)) l = l.
Proof.
  induction l as [|x l IH]; simpl; [done|]. intros Hno.
  destruct (String.eqb x value) eqn:Hx.
  - apply String.eqb_eq in Hx. tauto.
  - simpl. f_equal. apply IH. tauto.
Qed.

(** Two clicks on the same format undo each other: the same formats are
    selected as before.  When the format was not selected, the filters are
    the same again; when it was, it has moved to the end of the list. *)
Theorem toggle_twice (format : string) (prev : Filters.t) :
  (forall x, In x (Filters.format (toggleFormat format (toggleFormat format prev))) <->
     In x (Filters.format prev)) /\
  (~ In format (Filters.format prev) ->
   toggleFormat format (toggleFormat format prev) = prev) /\
  (In format (Filters.format prev) ->
   Filters.format (toggleFormat format (toggleFormat format prev)) =
     List.filter (fun f => negb (String.eqb f format)) (Filters.format prev) ++ [format]).
Proof.
  split; [|split].
  - intros x. rewrite !toggle_format_In.
    destruct (in_dec String.string_dec format (Filters.format prev)) as [Hin|Hno];
      destruct (decide (x = format)) as [->|Hx]; tauto.
  - intros Hno. unfold toggleFormat. simpl.
    assert (Hout : existsb (String.eqb format) (Filters.format prev) = false).
    { destruct (existsb _ _) eqn:Hin; [|done]. apply includes_In in Hin. tauto. }
    rewrite Hout.
    rewrite (proj2 (includes_In format _)) by (apply in_app_iff; right; by left).
    rewrite List.filter_app. simpl. rewrite String.eqb_refl. simpl.
    rewrite app_nil_r, without_absent by done. by destruct prev.
  - intros Hin. unfold toggleFormat. simpl.
    rewrite (proj2 (includes_In format _) Hin).
    assert (Hout : existsb (String.eqb format)
              (List.filter (fun f => negb (String.eqb f format)) (Filters.format prev))
            = false).
    { destruct (existsb _ _) eqn:Hin'; [|done].
      apply includes_In, In_without in Hin'. tauto. }
    by rewrite Hout.
Qed.

End FilterBarFacts.

(** ** Filters and the events shown *)

Section ShownFacts.
Import Js App FilterBar MoreExamples.

Lemma no_active_filter_is_cleared_helper (filters : Filters.t) :
  hasActiveFilters filters = false -> filters = clearFilters.
Proof.
  unfold hasActiveFilters, clearFilters.
  rewrite !orb_false_iff, !bool_decide_eq_false, !Nat.ltb_ge.
  intros (((((Hs & Hf) & Ht) & Ha) & Hb) & Ho).
  destruct filters as [search format eventType startDate endDate organization].
  simpl in *. apply dec_stable in Hs, Ha, Hb, Ho. subst.
  destruct format; [|simpl in Hf; lia]. destruct eventType; [|simpl in Ht; lia]. done.
Qed.

(** No filter is active exactly when the filters are those that
    [clearFilters] sets. *)
Theorem no_active_filter_is_cleared (filters : Filters.t) :
  hasActiveFilters filters = false <-> filters = clearFilters.
Proof.
  split; [apply no_active_filter_is_cleared_helper | by intros ->].
Qed.

Context `{Env}.

(** An event is shown exactly when it is one of the events and passes
    every filter that is set: the search text occurs, whatever the case, in
    its title, description or organizer; its format and its type are among
    the selected ones; its organizer is the selected one; it has a start
    date on or after the start and on or before the end of the range.  No
    more events are shown than there are. *)
Theorem filtered_events_pass (events : list event) (filters : Filters.t)
    (sortBy : string) :
  (forall e, In e (filteredEvents events filters sortBy) <->
     In e events /\
     (Filters.search filters = EmptyString \/
      lower_includes (title e) (toLowerCase (Filters.search filters)) = true \/
      lower_includes (description e) (toLowerCase (Filters.search filters)) = true \/
      lower_includes (organizer_name e) (toLowerCase (Filters.search filters)) = true) /\
     (Filters.format filters = [] \/
      includes_prop (Filters.format filters) (format e) = true) /\
     (Filters.eventType filters = [] \/
      includes_prop (Filters.eventType filters) (event_type e) = true) /\
     (Filters.organization filters = EmptyString \/
      organizer_name e = Str (Filters.organization filters)) /\
     (Filters.startDate filters = EmptyString \/
      on_or_after (Date_time (Filters.startDate filters)) e = true) /\
     (Filters.endDate filters = EmptyString \/
      on_or_before (Date_time (Filters.endDate filters)) e = true)) /\
  (length (filteredEvents events filters sortBy) <= length events)%nat.
Proof.
  unfold filteredEvents.
  set (by_search := fun e : event => _ || _ || _).
  assert (Hstep : forall (c : bool) (p : event -> bool) (l : list event) (e : event),
    In e (if c then List.filter p l else l) <-> In e l /\ (c = false \/ p e = true)).
  { intros [] p l e; rewrite ?filter_In; intuition congruence. }
  assert (Hlen : forall (c : bool) (p : event -> bool) (l : list event),
    (length (if c then List.filter p l else l) <= length l)%nat).
  { intros [] p l; [apply List.filter_length_le | done]. }
  split.
  - intros e.
    assert (Hsort : forall l : list event, In e (sort (compare sortBy) l) <-> In e l).
    { intros l. split; apply Permutation_in; [|symmetry]; apply sort_perm. }
    rewrite Hsort, !Hstep.
    rewrite !bool_decide_eq_false, !Nat.ltb_ge.
    assert (Hstr : forall s : string, ¬ s ≠ EmptyString <-> s = EmptyString).
    { intros s. split; [apply dec_stable | intros -> Hne; by apply Hne]. }
    assert (Hnil : forall l : list string, (length l <= 0)%nat <-> l = []).
    { intros [|x l]; simpl; split; try done; lia. }
    rewrite !Hstr, !Hnil. subst by_search. cbv beta.
    rewrite !orb_true_iff.
    assert (Horg : strict_eq (organizer_name e) (Filters.organization filters) = true
                   <-> organizer_name e = Str (Filters.organization filters)).
    { unfold strict_eq. destruct (organizer_name e) as [| |s]; try (split; done).
      rewrite String.eqb_eq. split; [by intros -> | by intros [= ->]]. }
    rewrite Horg. tauto.
  - rewrite (Permutation_length (sort_perm _ _)).
    repeat (etransitivity; [apply Hlen|]). done.
Qed.

(** With no filter active every event is shown: the events shown are the
    events, in the order of the sort. *)
Theorem cleared_filters_show_all (events : list event) (filters : Filters.t)
    (sortBy : string) :
  hasActiveFilters filters = false ->
  Permutation (filteredEvents events filters sortBy) events.
Proof.
  intros Hnone. apply no_active_filter_is_cleared_helper in Hnone as ->.
  unfold filteredEvents. simpl. apply sort_perm.
Qed.

End ShownFacts.

(** ** The order of the events shown and of the organizations *)

Section SortFacts.
Import Js.
Context {A : Type} (compare : A -> A -> Z) (R : A -> A -> Prop).
Hypothesis Hle : forall x y, compare x y <= 0 -> R x y.
Hypothesis Hgt : forall x y, 0 < compare x y -> R y x.

Lemma insert_sorted_HdRel (a x : A) (l : list A) :
  R a x -> HdRel R a l -> HdRel R a (insert_sorted compare x l).
Proof using Hle Hgt.
  intros Hax Hal. destruct l as [|y l]; simpl; [by constructor|].
  destruct (compare x y <=? 0); constructor; [done|].
  by apply HdRel_inv in Hal.
Qed.

Lemma insert_sorted_Sorted (x : A) (l : list A) :
  Sorted R l -> Sorted R (insert_sorted compare x l).
Proof using Hle Hgt.
  induction 1 as [|y l Hl IH Hy]; simpl; [by repeat constructor|].
  destruct (compare x y <=? 0) eqn:Hc.
  - apply Z.leb_le in Hc. repeat constructor; try done. by apply Hle.
  - apply Z.leb_gt in Hc. constructor; [done|].
    apply insert_sorted_HdRel; [by apply Hgt | done].
Qed.

Lemma sort_Sorted (l : list A) : Sorted R (sort compare l).
Proof using Hle Hgt.
  induction l as [|x l IH]; simpl; [constructor|].
  by apply insert_sorted_Sorted.
Qed.

End SortFacts.

Lemma Sorted_among {A} (R : A -> A -> Prop) (P : A -> Prop) (l : list A) :
  (forall a b c, P a -> P b -> P c -> R a b -> R b c -> R a c) ->
  Forall P l -> Sorted R l -> StronglySorted R l.
Proof.
  intros Htrans HP. induction 1 as [|a l Hl IH Ha]; [constructor|].
  apply Forall_cons in HP as [HPa HP]. specialize (IH HP).
  constructor; [done|].
  destruct Ha as [|b l Hab]; [constructor|].
  apply Forall_cons in HP as [HPb HP].
  apply StronglySorted_inv in IH as [_ Hb].
  constructor; [done|].
  rewrite List.Forall_forall in *. intros c Hc. eauto.
Qed.

Lemma string_compare_trans (a : string) :
  forall b c, String.compare a b ≠ Gt -> String.compare b c ≠ Gt ->
              String.compare a c ≠ Gt.
Proof.
  induction a as [|x a IH]; intros [|y b] [|z c]; simpl; try done.
  destruct (Ascii.compare x y) eqn:Hxy; try done.
  - apply Ascii.compare_eq_iff in Hxy as ->.
    destruct (Ascii.compare y z) eqn:Hyz; try done. apply IH.
  - intros _. destruct (Ascii.compare y z) eqn:Hyz; try done.
    + apply Ascii.compare_eq_iff in Hyz as ->. by rewrite Hxy.
    + intros _. unfold Ascii.compare in *.
      rewrite N.compare_lt_iff in Hxy, Hyz.
      assert (Hxz : (N_of_ascii x < N_of_ascii z)%N) by lia.
      apply N.compare_lt_iff in Hxz. by rewrite Hxz.
Qed.

Section OrderFacts.
Import Js App FilterBar Organizations MoreExamples.

Lemma add_all_In (l set : list string) (x : string) :
  In x (add_all set l) <-> In x set \/ In x l.
Proof.
  revert set. induction l as [|y l IH]; intros set; simpl; [tauto|].
  destruct (existsb (String.eqb y) set) eqn:Hy; rewrite IH.
  - apply existsb_exists in Hy as (y' & Hin & ->%String.eqb_eq).
    split; [tauto|]. intros [?|[->|?]]; tauto.
  - rewrite in_app_iff. simpl. tauto.
Qed.

Lemma add_all_NoDup (l set : list string) :
  List.NoDup set -> List.NoDup (add_all set l).
Proof.
  revert set. induction l as [|y l IH]; intros set Hset; simpl; [done|].
  destruct (existsb (String.eqb y) set) eqn:Hy; apply IH; [done|].
  apply List.NoDup_app; [done | repeat constructor; by intros [] |].
  intros x Hx [<-|[]].
  assert (Hex : existsb (String.eqb y) set = true); [|congruence].
  apply existsb_exists. exists y. by rewrite String.eqb_refl.
Qed.

Lemma names_In (events : list event) (name : string) :
  In name (names events) <->
  name ≠ EmptyString /\ exists e, In e events /\ organizer_name e = Str name.
Proof.
  unfold names. rewrite in_map_iff. split.
  - intros (p & <- & Hp). apply filter_In in Hp as [Hp Htruthy].
    apply in_map_iff in Hp as (e & <- & He).
    destruct (organizer_name e) as [| |s] eqn:Hs; try done. simpl in *.
    apply bool_decide_eq_true in Htruthy. split; [done|]. by exists e.
  - intros (Hname & e & He & Hs). exists (Str name). split; [done|].
    apply filter_In. split.
    + apply in_map_iff. by exists e.
    + simpl. by apply bool_decide_eq_true.
Qed.

Lemma strictly_sorted (l : list string) :
  StronglySorted (fun a b => String.compare a b ≠ Gt) l -> List.NoDup l ->
  StronglySorted (fun a b => String.compare a b = Lt) l.
Proof.
  induction 1 as [|a l Hl IH Ha]; intros Hnd; [constructor|].
  apply List.NoDup_cons_iff in Hnd as [Hnotin Hnd].
  constructor; [by apply IH|].
  rewrite List.Forall_forall in *. intros b Hb. specialize (Ha b Hb).
  destruct (String.compare a b) eqn:Hab; try done.
  apply String.compare_eq_iff in Hab as ->. done.
Qed.

(** The organizations offered by the filter are exactly the non-empty
    organizer names of the events, each one once, in strictly ascending
    order of their code units. *)
Theorem organizations_sorted_names (events : list event) :
  (forall name, In name (organizations events) <->
     name ≠ EmptyString /\ exists e, In e events /\ organizer_name e = Str name) /\
  StronglySorted (fun a b => String.compare a b = Lt) (organizations events).
Proof.
  unfold organizations. split.
  - intros name. rewrite <- names_In.
    transitivity (In name (add_all [] (names events))).
    + split; apply Permutation_in; [|symmetry]; apply sort_perm.
    + rewrite add_all_In. simpl. tauto.
  - apply strictly_sorted.
    + apply (Sorted_among _ (fun _ => True)).
      * intros a b c _ _ _. apply string_compare_trans.
      * apply List.Forall_forall. done.
      * apply sort_Sorted; unfold code_unit_order; intros x y.
        -- destruct (String.compare x y); [done|done|lia].
        -- rewrite String.compare_antisym.
           destruct (String.compare y x); simpl; try done; lia.
    + eapply Permutation_NoDup; [symmetry; apply sort_perm|].
      apply add_all_NoDup. constructor.
Qed.

Context `{Env}.

(** Sorted by completeness, the events shown are in descending order of
    their score, a missing score counting as 0: every event comes before
    all events of a lower or equal score that follow it. *)
Theorem shown_by_completeness (events : list event) (filters : Filters.t) :
  StronglySorted
    (fun a b => default 0 (completeness_score b) <= default 0 (completeness_score a))
    (filteredEvents events filters "completeness").
Proof.
  unfold filteredEvents.
  apply (Sorted_among _ (fun _ => True)).
  - intros a b c _ _ _. lia.
  - apply List.Forall_forall. done.
  - apply sort_Sorted; unfold compare; simpl; intros x y; lia.
Qed.

Lemma compare_date_le (x y : event) :
  compare "date" x y <= 0 ->
  forall tx ty, sort_date x = Some tx -> sort_date y = Some ty -> tx <= ty.
Proof. unfold compare. simpl. intros Hc tx ty Hx Hy. rewrite Hx, Hy in Hc. lia. Qed.

Lemma compare_date_gt (x y : event) :
  0 < compare "date" x y ->
  forall ty tx, sort_date y = Some ty -> sort_date x = Some tx -> ty <= tx.
Proof. unfold compare. simpl. intros Hc ty tx Hy Hx. rewrite Hx, Hy in Hc. lia. Qed.

(** Sorted by date, the events shown are in ascending order of their
    dates, an event without a start date counting as the last day of the
    year 9999, when the start date of every event that has one is a date
    the browser can read. *)
Theorem shown_by_date (events : list event) (filters : Filters.t) :
  Forall (fun e => is_Some (sort_date e)) events ->
  Forall (fun e => is_Some (sort_date e)) (filteredEvents events filters "date") /\
  StronglySorted
    (fun a b => forall ta tb, sort_date a = Some ta -> sort_date b = Some tb -> ta <= tb)
    (filteredEvents events filters "date").
Proof.
  intros Hdates.
  assert (Hshown : Forall (fun e => is_Some (sort_date e))
                     (filteredEvents events filters "date")).
  { rewrite List.Forall_forall in *. intros e He. apply Hdates.
    by apply filtered_in in He as [He _]. }
  split; [done|].
  apply (Sorted_among _ (fun e => is_Some (sort_date e))); [|done|].
  - intros a b c _ [tb Hb] _ Hab Hbc ta tc Ha Hc.
    specialize (Hab ta tb Ha Hb). specialize (Hbc tb tc Hb Hc). lia.
  - unfold filteredEvents. apply sort_Sorted.
    + apply compare_date_le.
    + apply compare_date_gt.
Qed.

End OrderFacts.

Section OrderExamples.
Import Js App FilterBar MoreExamples.
Existing Instance UtcBrowser.browser.

(** Every event of the catalog has a start date that the browser reads,
    or none. *)
Lemma catalog_is_dated : Forall (fun e => is_Some (sort_date e)) catalog.
Proof. repeat constructor; eexists; vm_compute; reflexivity. Qed.

(** The whole catalog is shown when the filters are cleared. *)
Lemma cleared_filters_show_catalog :
  hasActiveFilters clearFilters = false /\
  Permutation (filteredEvents catalog clearFilters "date") catalog.
Proof.
  split; [reflexivity|]. by apply cleared_filters_show_all.
Defined.

(** The online events of the catalog, by date. *)
Lemma shown_by_date_catalog :
  Forall (fun e => is_Some (sort_date e)) catalog /\
  Forall (fun e => is_Some (sort_date e)) (filteredEvents catalog online_only "date") /\
  StronglySorted
    (fun a b => forall ta tb, sort_date a = Some ta -> sort_date b = Some tb -> ta <= tb)
    (filteredEvents catalog online_only "date").
Proof.
  split; [apply catalog_is_dated|]. apply shown_by_date, catalog_is_dated.
Defined.

End OrderExamples.

(** ** The score and its indicator *)

Section IndicatorFacts.
Import Scoring CompletenessIndicator.
Context {event : Type} (has_field : event -> string -> bool).

Ltac by_fields :=
  repeat (simpl;
          match goal with
          | |- context [has_field ?ev ?field] => destruct (has_field ev field)
          end);
  simpl.

Lemma replace_absent (pattern replacement s : string) :
  Py.contains pattern s = false -> replace pattern replacement s = s.
Proof.
  induction s as [|c s IH]; simpl.
  - by destruct (Py.startswith pattern "").
  - intros [Hhead Htail]%orb_false_iff. rewrite Hhead. by rewrite IH.
Qed.

(** The score is a multiple of 10, and it is 100 exactly when no field is
    missing; the missing fields are at most the eight of the table, none
    twice. *)
Theorem calculate_completeness_full (ev : event) :
  let '(score, missing_fields) := calculate_completeness has_field ev in
  (score = 100 <-> missing_fields = []) /\
  score mod 10 = 0 /\
  (length missing_fields <= 8)%nat /\
  List.NoDup missing_fields.
Proof.
  unfold calculate_completeness, weights. by_fields.
  all: split; [split; intros Hall; try discriminate Hall; reflexivity|].
  all: split; [reflexivity|]; split; [simpl; lia|].
  all: repeat (constructor; [simpl; intuition discriminate|]); constructor.
Qed.

(** Given the score and the missing fields of the scorer, the indicator
    can show its tooltip exactly when the score is below 100; the label
    is Complete exactly from a score of 80; an event labelled Complete
    misses at most two fields and one labelled Incomplete at least
    three. *)
Theorem indicator_of_scorer (ev : event) (showTooltip : bool) :
  let '(score, missing_fields) := calculate_completeness has_field ev in
  (tooltip showTooltip missing_fields = true <-> showTooltip = true /\ score < 100) /\
  (label (Some score) = "Complete" <-> 80 <= score) /\
  (label (Some score) = "Complete" -> (length missing_fields <= 2)%nat) /\
  (label (Some score) = "Incomplete" -> (3 <= length missing_fields)%nat).
Proof.
  unfold calculate_completeness, weights, tooltip, label, appearance.
  destruct showTooltip; by_fields.
  all: split;
    [split; [intros Hshow; first [discriminate Hshow | split; [reflexivity | lia]]
            | intros [Hshow Hbelow]; first [discriminate Hshow | lia | reflexivity]]|].
  all: split; [split; intros Hlabel; first [discriminate Hlabel | lia | reflexivity]|].
  all: split; intros Hlabel; first [discriminate Hlabel | simpl; lia].
Qed.

(** The class of the progress ring is the colour class itself: the
    replacement of [text-] by [stroke-] finds nothing to replace, so the
    ring never gets a class that starts with [stroke-]. *)
Theorem ring_class_unchanged (score : option Z) :
  ring_class score = colorClass score /\
  Py.startswith "stroke-" (ring_class score) = false /\
  In (colorClass score) ["completeness-high"; "completeness-medium"; "completeness-low"].
Proof.
  unfold ring_class, colorClass, appearance.
  destruct (80 <=? default 0 score); [|destruct (50 <=? default 0 score)];
    cbn [fst]; (split; [by apply replace_absent|]);
    (rewrite replace_absent by done); (split; [done|]); simpl; tauto.
Qed.

End IndicatorFacts.

(** ** The time of the last update *)

Section LastUpdatedFacts.
Import UseEvents.
Variable null_read : string -> string.

(** A fetch either keeps the time of the last update, or replaces it by a
    truthy value; it replaces it only when the fetch ends without error on
    an object.  So after a fetch that ends with an error the events are
    empty while the time of the last update is that of before. *)
Theorem fetch_events_last_updated (o : outcome) (s : state) :
  let s' := fetchEvents null_read o s in
  (lastUpdated s' = lastUpdated s \/
   truthy (lastUpdated s') = true /\ error s' = None /\
   exists members, payload o = Some (JObj members) /\
     lastUpdated s' =
       member_opt (member_opt (Some (JObj members)) "metadata") "last_updated") /\
  (error s' <> None -> lastUpdated s' = lastUpdated s /\ events s' = JArr []).
Proof.
  unfold fetchEvents, try_block.
  destruct o as [message|status [message|data]]; cbn [payload];
    [cbn; split; [by left | done] | ..].
  - destruct (ok status); cbn; (split; [by left | done]).
  - destruct (ok status); cbn [negb]; [|cbn; split; [by left | done]].
    destruct data as [|b|n|str|items|members]; cbn [isArray member];
      try (cbn; split; [by left | done]).
    destruct (List.find _ members) as [[key data_events]|] eqn:Hfind;
      cbn [fmap option_fmap option_map snd]; [|cbn; split; [by left | done]].
    destruct (truthy (Some data_events)) eqn:Hevents; [|cbn; split; [by left | done]].
    destruct (truthy (member_opt (member_opt (Some (JObj members)) "metadata")
                        "last_updated")) eqn:Hlast.
    + cbn. split; [|done]. right. split; [done|]. split; [done|]. by exists members.
    + cbn. split; [by left | done].
Qed.

End LastUpdatedFacts.
